(** * Instant Analogy Generator backend: a shallow embedding

    The first part of the file embeds [src/backend], one module per source
    file:
    - [Py]: the Python values the handlers pass around (strings, exceptions,
      JSON values) and the error monad for [raise] / [try ... except];
    - [Regex]: the fragment of Python's [re] that [auth.validate_password]
      uses, with a backtracking matcher;
    - [UserCreate], [UserLogin], [UserInDB]: [models.py];
    - [Utils]: [utils.py] (password hashing, session tokens);
    - [Auth]: [auth.py] (password policy, signup, credential check);
    - [Main]: [main.py] (the HTTP handlers);
    - [TestDb]: [test_db.py] (the connection test);
    - [Demo]: collaborators and data to run the model on.
    The second part proves the properties: [RegexFacts], [PolicyFacts],
    [AuthFacts], [UtilsFacts], [MainFacts], and then, on the rest of the
    code, [AuthMore], [PyFacts], [TokenMore], [MainMore], [TestDbFacts].

    Conventions.  A Python [str] is a [string], one [ascii] per character
    (the code points below 256).  Time is the clock reading in whole seconds
    since the epoch, as the token library reads it.  A collection of the
    document store is the list of its documents in insertion order, and a
    handler that writes to one returns the collection afterwards.  The
    collaborators the repository calls into (the bcrypt context, the keyed
    digest, the language model, [json.loads], bson's [ObjectId]) are
    parameters of the definitions that use them. *)

From stdpp Require Import gmap strings list sorting.
From Stdlib Require Import ZArith Ascii String.

Open Scope string_scope.
Open Scope Z_scope.

(* ===================================================================== *)
(** * Python values *)
(* ===================================================================== *)

Module Py.

(** ** Exceptions *)

(** The exceptions the backend raises or catches.  The three token errors
    form python-jose's hierarchy: [ExpiredSignatureError] and
    [JWTClaimsError] are subclasses of [JWTError].  The [detail] of an
    [HTTPException] is either a literal or [str(e)] of a caught exception,
    kept symbolic. *)
Inductive exn :=
  | HTTPException (status_code : Z) (detail : text)
  | JWTError
  | ExpiredSignatureError
  | JWTClaimsError
  | JSONDecodeError
  | AttributeError
  | KeyError (key : string)
  | IndexError
  | InvalidId
  | UpstreamError (msg : string)
with text :=
  | Lit (s : string)
  | StrOf (e : exn).

(** [isinstance(e, JWTError)] *)
Definition is_JWTError (e : exn) : bool :=
  match e with
  | JWTError | ExpiredSignatureError | JWTClaimsError => true
  | _ => false
  end.

(** ** Results: a value or a raised exception *)

Inductive res (A : Type) :=
  | Ret (a : A)
  | Raise (e : exn).
Arguments Ret {A} a.
Arguments Raise {A} e.

#[global] Instance res_ret : MRet res := @Ret.
#[global] Instance res_bind : MBind res := fun A B f m =>
  match m with
  | Ret a => f a
  | Raise e => Raise e
  end.

(** [try: m  except Exception as e: h e] *)
Definition try_except {A} (m : res A) (h : exn -> res A) : res A :=
  match m with
  | Ret a => Ret a
  | Raise e => h e
  end.

(** ** Strings *)

Definition LF : ascii := ascii_of_nat 10.

(** [str.isspace] on the characters of the model: TAB..CR, FS..US, space,
    NEL and the no-break space. *)
Definition isspace (a : ascii) : bool :=
  let n := nat_of_ascii a in
  ((9 <=? n) && (n <=? 13) || (28 <=? n) && (n <=? 32)
   || (n =? 133) || (n =? 160))%nat.

Fixpoint lstrip (s : string) : string :=
  match s with
  | String a s' => if isspace a then lstrip s' else s
  | EmptyString => EmptyString
  end.

Fixpoint rstrip (s : string) : string :=
  match s with
  | String a s' =>
      match rstrip s' with
      | EmptyString => if isspace a then EmptyString else String a EmptyString
      | r => String a r
      end
  | EmptyString => EmptyString
  end.

(** [s.strip()] *)
Definition strip (s : string) : string := rstrip (lstrip s).

(** [s.startswith(p)] *)
Definition startswith (p s : string) : bool := String.prefix p s.

(** [s.split(sep)] for a one-character separator: the pieces between
    separators, never an empty list. *)
Fixpoint split (sep : ascii) (s : string) : list string :=
  match s with
  | EmptyString => [EmptyString]
  | String a s' =>
      if Ascii.eqb a sep then EmptyString :: split sep s'
      else match split sep s' with
           | l :: ls => String a l :: ls
           | [] => [String a EmptyString]
           end
  end.

(** [sep.join(ls)] *)
Fixpoint join (sep : ascii) (ls : list string) : string :=
  match ls with
  | [] => EmptyString
  | [l] => l
  | l :: ls' => l ++ String sep (join sep ls')
  end.

(** [ls[1:-1]] *)
Definition inner {A} (ls : list A) : list A := removelast (tail ls).

(** ** JSON values, as [json.loads] builds them *)

#[warnings="-register-all"]
Inductive json :=
  | JNull
  | JBool (b : bool)
  | JNum (n : Z)
  | JStr (s : string)
  | JArr (l : list json)
  | JObj (m : gmap string json).

(** [d.setdefault(k, v)] on the dict [d] *)
Definition setdefault (k : string) (v : json) (d : gmap string json)
  : gmap string json :=
  match d !! k with
  | Some _ => d
  | None => <[k := v]> d
  end.

(** [sep not in s] *)
Fixpoint lacks (sep : ascii) (s : string) : bool :=
  match s with
  | String a s' => negb (Ascii.eqb a sep) && lacks sep s'
  | EmptyString => true
  end.

(** [s.count(sep)] *)
Fixpoint count (sep : ascii) (s : string) : nat :=
  match s with
  | String a s' => ((if Ascii.eqb a sep then 1 else 0) + count sep s')%nat
  | EmptyString => 0%nat
  end.

(** [all(c.isspace() for c in s)] *)
Fixpoint all_space (s : string) : bool :=
  match s with
  | String a s' => isspace a && all_space s'
  | EmptyString => true
  end.

(** The first and the last character of a string. *)
Definition first_char (s : string) : option ascii :=
  match s with
  | String a _ => Some a
  | EmptyString => None
  end.

Fixpoint last_char (s : string) : option ascii :=
  match s with
  | String a EmptyString => Some a
  | String _ s' => last_char s'
  | EmptyString => None
  end.

End Py.
Import Py.

(* ===================================================================== *)
(** * The fragment of [re] used by the password policy *)
(* ===================================================================== *)

Module Regex.

(** One-character matchers. *)
Inductive cclass :=
  | Dot                        (* [.]: any character except a line feed *)
  | Range (lo hi : ascii)      (* [[lo-hi]] *)
  | OneOf (cs : list ascii).   (* [[abc]] *)

Definition accepts (c : cclass) (a : ascii) : bool :=
  match c with
  | Dot => negb (Ascii.eqb a LF)
  | Range lo hi =>
      ((nat_of_ascii lo <=? nat_of_ascii a)
       && (nat_of_ascii a <=? nat_of_ascii hi))%nat
  | OneOf cs => existsb (Ascii.eqb a) cs
  end.

Inductive regex :=
  | Bol                              (* [^] *)
  | Eol                              (* [$] *)
  | Chr (c : cclass)
  | AtLeast (n : nat) (c : cclass)   (* [c{n,}]; [c*] is [AtLeast 0 c] *)
  | Look (r : regex)                 (* [(?=r)] *)
  | Seq (r1 r2 : regex).

(** [$] without MULTILINE: at the end, or just before a final line feed. *)
Definition at_eol (s : string) : bool :=
  match s with
  | EmptyString => true
  | String a EmptyString => Ascii.eqb a LF
  | _ => false
  end.

(** Backtracking matcher in continuation-passing style: [pos] characters
    have been consumed, [s] is what remains, [k] matches the rest of the
    pattern. *)
Fixpoint rep (c : cclass) (k : nat -> string -> bool)
    (n pos : nat) (s : string) : bool :=
  match s with
  | String a s' =>
      (accepts c a && rep c k (Nat.pred n) (S pos) s')
      || ((n =? 0)%nat && k pos s)
  | EmptyString => (n =? 0)%nat && k pos s
  end.

Fixpoint exec (r : regex) (pos : nat) (s : string)
    (k : nat -> string -> bool) : bool :=
  match r with
  | Bol => (pos =? 0)%nat && k pos s
  | Eol => at_eol s && k pos s
  | Chr c =>
      match s with
      | String a s' => accepts c a && k (S pos) s'
      | EmptyString => false
      end
  | AtLeast n c => rep c k n pos s
  | Look r => exec r pos s (fun _ _ => true) && k pos s
  | Seq r1 r2 => exec r1 pos s (fun pos' s' => exec r2 pos' s' k)
  end.

(** Every character of [s] is in the class. *)
Fixpoint all_accept (c : cclass) (s : string) : bool :=
  match s with
  | String a s' => accepts c a && all_accept c s'
  | EmptyString => true
  end.

(** [re.match(r, s)] succeeded *)
Definition re_match (r : regex) (s : string) : bool :=
  exec r 0 s (fun _ _ => true).

End Regex.

(* ===================================================================== *)
(** * [models.py] *)
(* ===================================================================== *)

Module UserCreate.
Record t := { username : string; email : string; password : string }.
End UserCreate.

Module UserLogin.
Record t := { email : string; password : string }.
End UserLogin.

Module UserInDB.
Record t := { username : string; email : string; hashed_password : string }.

(** The fields of the model as a dict ([.dict()]). *)
Definition dict (u : t) : gmap string string :=
  {[ "username" := username u; "email" := email u;
     "hashed_password" := hashed_password u ]}.

(** The specification's "public record (username, email)" of a user. *)
Definition public_record (u : t) : gmap string string :=
  {[ "username" := username u; "email" := email u ]}.
End UserInDB.

(* ===================================================================== *)
(** * [utils.py] *)
(* ===================================================================== *)

Module Utils.

(** ** Token library (python-jose), an external collaborator *)

(** A claim value: the tokens of this backend carry strings and the integer
    expiry. *)
Inductive claim :=
  | CStr (s : string)
  | CInt (n : Z).

#[global] Instance claim_eq_dec : EqDecision claim.
Proof. solve_decision. Defined.

(** What the library reads in a compact token: the signing input (header
    segment, a dot, payload segment) as it stands in the token, the header's
    [alg] and the claims when those segments decode, and the tag the
    signature segment decodes to. *)
Record jws := {
  signing_input : string;
  alg : option string;
  payload : option (gmap string claim);
  signature : string }.

(** A token string either has that shape or cannot be loaded at all. *)
Inductive token :=
  | Compact (j : jws)
  | Unloadable (s : string).

Section Jose.

(** The keyed digest (HMAC-SHA256): key, message, tag. *)
Variable hmac : string -> string -> string.
(** The compact serialization of a header and claims: the signing input. *)
Variable serialize : string -> gmap string claim -> string.

(** Modelled from the spec: [jose.jwt.encode], which is not part of the
    repository; it "serializes claims plus an expiry timestamp ..., signs
    with a server-held symmetric secret using an HMAC-based scheme". *)
Definition jwt_encode (claims : gmap string claim) (key algorithm : string)
  : token :=
  let input := serialize algorithm claims in
  Compact {| signing_input := input; alg := Some algorithm;
             payload := Some claims; signature := hmac key input |}.

(** The expiry check at clock reading [now]: a missing [exp] is not checked,
    an [exp] in the past is [ExpiredSignatureError], one that is not an
    integer a [JWTClaimsError]. *)
Definition validate_exp (claims : gmap string claim) (now : Z) : res () :=
  match claims !! "exp" with
  | None => Ret ()
  | Some (CInt exp) => if exp <? now then Raise ExpiredSignatureError else Ret ()
  | Some (CStr _) => Raise JWTClaimsError
  end.

(** Modelled from the spec: [jose.jwt.decode], which is not part of the
    repository; it "checks signature integrity and expiry" and fails "if
    signature fails, payload is malformed, or expiry has passed".  Every
    failure is a [JWTError] or one of its subclasses.  The checks the
    library makes on other registered claims are left out. *)
Definition jwt_decode (tok : token) (key : string) (algorithms : list string)
    (now : Z) : res (gmap string claim) :=
  match tok with
  | Unloadable _ => Raise JWTError
  | Compact j =>
      match alg j with
      | None => Raise JWTError
      | Some a =>
          if negb (bool_decide (a ∈ algorithms)) then Raise JWTError
          else if negb (String.eqb (signature j) (hmac key (signing_input j)))
          then Raise JWTError
          else match payload j with
               | None => Raise JWTError
               | Some claims => _ ← validate_exp claims now; Ret claims
               end
      end
  end.

(** ** Token helpers *)

Definition SECRET_KEY : string := "your_super_secret_key".
Definition ALGORITHM : string := "HS256".
Definition ACCESS_TOKEN_EXPIRE_MINUTES : Z := 60.

(** [timedelta(minutes=m)], in seconds *)
Definition minutes (m : Z) : Z := 60 * m.

(** [create_access_token(data, expires_delta)] at clock reading [now].  A
    zero [expires_delta] is falsy, so it selects the default as [None] does. *)
Definition create_access_token (data : gmap string claim)
    (expires_delta : option Z) (now : Z) : token :=
  let to_encode := data in
  let delta :=
    match expires_delta with
    | Some d => if d =? 0 then minutes ACCESS_TOKEN_EXPIRE_MINUTES else d
    | None => minutes ACCESS_TOKEN_EXPIRE_MINUTES
    end in
  let expire := now + delta in
  let to_encode := <["exp" := CInt expire]> to_encode in
  jwt_encode to_encode SECRET_KEY ALGORITHM.

(** [decode_access_token(token)] at clock reading [now]: the payload, or
    [None] on a [JWTError]; any other exception propagates. *)
Definition decode_access_token (tok : token) (now : Z)
  : res (option (gmap string claim)) :=
  try_except
    (payload ← jwt_decode tok SECRET_KEY [ALGORITHM] now; Ret (Some payload))
    (fun e => if is_JWTError e then Ret None else Raise e).

(** ** The three ways a token fails, as the specification names them *)




End Jose.

(** ** Password helpers *)

Section Passwords.

(** passlib's bcrypt context: [hash] draws a salt, [verify] recomputes. *)
Variable bcrypt_hash : string -> string -> string.
Variable bcrypt_verify : string -> string -> bool.

Definition hash_password (salt password : string) : string :=
  bcrypt_hash salt password.

Definition verify_password (plain_password stored_password : string) : bool :=
  bcrypt_verify plain_password stored_password.

End Passwords.

(** The lifetime in seconds that [create_access_token] gives a token. *)
Definition lifetime (expires_delta : option Z) : Z :=
  match expires_delta with
  | Some d => if d =? 0 then 3600 else d
  | None => 3600
  end.

End Utils.

(* ===================================================================== *)
(** * [auth.py] *)
(* ===================================================================== *)

Module Auth.
Import Regex Utils.

(** A document of [users_collection]. *)
Record user_doc := {
  doc_username : string;
  doc_email : string;
  doc_hashed_password : string }.

(** [users_collection.find_one({"email": email})]: the first match. *)
Definition find_one (email : string) (users : list user_doc) : option user_doc :=
  List.find (fun d => String.eqb (doc_email d) email) users.

(** [users_collection.insert_one(doc)] *)
Definition insert_one (d : user_doc) (users : list user_doc) : list user_doc :=
  users ++ [d].

Definition digit : cclass := Range "0" "9".
Definition lower : cclass := Range "a" "z".
Definition upper : cclass := Range "A" "Z".
Definition special : cclass :=
  OneOf ["@"; "#"; "$"; "%"; "^"; "&"; "+"; "="; "!"]%char.

(** [(?=.*c)] *)
Definition ahead (c : cclass) : regex := Look (Seq (AtLeast 0 Dot) (Chr c)).

(** [^(?=.*[0-9])(?=.*[a-z])(?=.*[A-Z])(?=.*[@#$%^&+=!]).{8,}$] *)
Definition pattern : regex :=
  Seq Bol (Seq (ahead digit) (Seq (ahead lower) (Seq (ahead upper)
    (Seq (ahead special) (Seq (AtLeast 8 Dot) Eol))))).

Definition policy_detail : text :=
  Lit "Password must be ≥8 chars, include 1 uppercase, 1 lowercase, 1 number, 1 special character (@#$%^&+=!)".

Definition validate_password (password : string) : res () :=
  if negb (re_match pattern password)
  then Raise (HTTPException 400 policy_detail)
  else Ret ().

Section Auth.

Variable bcrypt_hash : string -> string -> string.
Variable bcrypt_verify : string -> string -> bool.

(** [create_user(user)] on the collection [users]; [salt] is the salt the
    hasher draws.  Returns the outcome and the collection afterwards. *)
Definition create_user (user : UserCreate.t) (salt : string)
    (users : list user_doc) : res string * list user_doc :=
  match validate_password (UserCreate.password user) with
  | Raise e => (Raise e, users)
  | Ret _ =>
      match find_one (UserCreate.email user) users with
      | Some _ =>
          (Raise (HTTPException 400 (Lit "Email already registered")), users)
      | None =>
          let hashed_pw := hash_password bcrypt_hash salt (UserCreate.password user) in
          let user_doc := {| doc_username := UserCreate.username user;
                             doc_email := UserCreate.email user;
                             doc_hashed_password := hashed_pw |} in
          (Ret "User created successfully", insert_one user_doc users)
      end
  end.

(** What [authenticate_user] returns: [False] or a [UserInDB]. *)
Inductive auth_result :=
  | AuthFalse
  | AuthUser (u : UserInDB.t).

Definition authenticate_user (email password : string)
    (users : list user_doc) : auth_result :=
  match find_one email users with
  | None => AuthFalse
  | Some user =>
      if negb (verify_password bcrypt_verify password (doc_hashed_password user))
      then AuthFalse
      else AuthUser {| UserInDB.username := doc_username user;
                       UserInDB.email := doc_email user;
                       UserInDB.hashed_password := doc_hashed_password user |}
  end.



End Auth.

(** ** The policy as the specification words it *)

Definition has (c : cclass) (s : string) : bool :=
  existsb (accepts c) (list_ascii_of_string s).

(** "minimum 8 characters, at least one digit, one lowercase letter, one
    uppercase letter, one character from a fixed special-character set" *)
Definition meets_policy (password : string) : bool :=
  (8 <=? String.length password)%nat
  && has digit password && has lower password
  && has upper password && has special password.

(** ** The invariant of the users collection *)


End Auth.

(* ===================================================================== *)
(** * [main.py] *)
(* ===================================================================== *)

Module Main.
Import Utils Auth.

(** ** Request and response bodies *)

Module GenerateRequest.
Record t := { concept : string; level : string }.
End GenerateRequest.

Module QuizRequest.
Record t := { concept : string; result : gmap string json }.
End QuizRequest.

Record login_response := { access_token : token; token_type : string }.

Module GenerateResponse.
Record t := {
  concept_received : string;
  level : string;
  user : option claim;
  result : json;
  quiz : json }.
End GenerateResponse.

Record delete_response := { status : string; message : string }.

(** ** The history collection *)

(** A bson [ObjectId], by the hexadecimal string [str] prints it as. *)
Record oid := { hex : string }.

#[global] Instance oid_eq_dec : EqDecision oid.
Proof. solve_decision. Defined.

(** The [_id] field: an [ObjectId] in the collection, its [str] in a
    response. *)
Inductive doc_id :=
  | Oid (o : oid)
  | OidStr (s : string).

#[global] Instance doc_id_eq_dec : EqDecision doc_id.
Proof. solve_decision. Defined.

(** [str(doc["_id"])] *)
Definition str_id (i : doc_id) : string :=
  match i with
  | Oid o => hex o
  | OidStr s => s
  end.

Module HistoryDoc.
Record t := {
  _id : doc_id;
  user_email : claim;
  concept : string;
  level : string;
  result : json;
  quiz : json;
  timestamp : Z }.
End HistoryDoc.

(** [history_collection.insert_one(doc)] *)
Definition insert_one (d : HistoryDoc.t) (history : list HistoryDoc.t)
  : list HistoryDoc.t := history ++ [d].

(** [history_collection.delete_one(filter)]: removes the first match;
    returns [deleted_count] and the collection afterwards. *)
Fixpoint delete_one (matches : HistoryDoc.t -> bool)
    (history : list HistoryDoc.t) : nat * list HistoryDoc.t :=
  match history with
  | [] => (0%nat, [])
  | d :: ds =>
      if matches d then (1%nat, ds)
      else let '(n, ds') := delete_one matches ds in (n, d :: ds')
  end.

(** Newest first: the order of [.sort("timestamp", -1)]. *)
Definition newer_first : relation HistoryDoc.t :=
  fun a b => HistoryDoc.timestamp b <= HistoryDoc.timestamp a.

#[global] Instance newer_first_dec : RelDecision newer_first.
Proof. intros a b. unfold newer_first. apply _. Defined.

(** [history_collection.find(filter).sort("timestamp", -1)] *)
Definition find_sorted (matches : HistoryDoc.t -> Prop)
    `{!forall d, Decision (matches d)} (history : list HistoryDoc.t)
  : list HistoryDoc.t :=
  merge_sort newer_first (filter matches history).

(** [d[k]] on a claims dict *)
Definition getitem (d : gmap string claim) (k : string) : res claim :=
  match d !! k with
  | Some v => Ret v
  | None => Raise (KeyError k)
  end.

(** The two ways a delete finds nothing to delete, as the specification
    names them: no entry has the id, or the entry with the id belongs to
    someone else. *)
Definition id_absent (obj_id : oid) (history : list HistoryDoc.t) : Prop :=
  forall d, d ∈ history -> HistoryDoc._id d <> Oid obj_id.

Definition owner_differs (obj_id : oid) (owner : claim)
    (history : list HistoryDoc.t) : Prop :=
  (exists d, d ∈ history /\ HistoryDoc._id d = Oid obj_id)
  /\ forall d, d ∈ history -> HistoryDoc._id d = Oid obj_id ->
       HistoryDoc.user_email d <> owner.

(** The four keys of an analogy result. *)
Definition analogy_keys : list string :=
  ["tagline"; "analogy"; "mapping"; "limitations"].

Definition has_analogy_keys (j : json) : Prop :=
  match j with
  | JObj d => forall k, k ∈ analogy_keys -> is_Some (d !! k)
  | _ => False
  end.

(** ** Calls to the language model *)

(** What a request to the model is made of. *)
Inductive prompt :=
  | AnalogyPrompt (concept level : string)
  | QuizPrompt (concept : string) (analogy_data : json)
  | QuizPromptManual (concept : string) (analogy_data : gmap string json).

Section Handlers.

Variable bcrypt_verify : string -> string -> bool.
Variable hmac : string -> string -> string.
Variable serialize : string -> gmap string claim -> string.
(** The library's reading of a token string. *)
Variable load_token : string -> token.
(** [client.chat.completions.create(...).choices[0].message.content]: the
    call may raise, and the content may be [None]. *)
Variable chat : prompt -> res (option string).
(** [json.loads]; [None] stands for [JSONDecodeError]. *)
Variable json_loads : string -> option json.
(** bson's [ObjectId(s)]: the id a string names, or an exception. *)
Variable ObjectId : string -> res oid.

(** ** Authentication routes *)

Definition login (user : UserLogin.t) (now : Z) (users : list user_doc)
  : res login_response :=
  match authenticate_user bcrypt_verify
          (UserLogin.email user) (UserLogin.password user) users with
  | AuthFalse => Raise (HTTPException 401 (Lit "Invalid credentials"))
  | AuthUser auth_user =>
      let access_token :=
        create_access_token hmac serialize
          {[ "email" := CStr (UserInDB.email auth_user) ]} None now in
      Ret {| access_token := access_token; token_type := "bearer" |}
  end.

Definition get_current_user (authorization : string) (now : Z)
  : res (gmap string claim) :=
  if negb (startswith "Bearer " authorization)
  then Raise (HTTPException 401 (Lit "Invalid token"))
  else
    token ← match split " " authorization !! 1%nat with
            | Some t => Ret t
            | None => Raise IndexError
            end;
    payload ← decode_access_token hmac (load_token token) now;
    match payload with
    | None => Raise (HTTPException 401 (Lit "Invalid token"))
    | Some payload =>
        if negb (bool_decide (is_Some (payload !! "email")))
        then Raise (HTTPException 401 (Lit "Invalid token"))
        else Ret payload
    end.

(** ** Reading the model's answer *)

(** [resp.choices[0].message.content.strip()] *)
Definition message_text (p : prompt) : res string :=
  content ← chat p;
  match content with
  | Some s => Ret (strip s)
  | None => Raise AttributeError
  end.

(** Dropping the first and last line of a fenced answer. *)
Definition unfence (text : string) : string :=
  if startswith "```" text then
    let lines := split LF text in
    if (3 <=? List.length lines)%nat then join LF (inner lines) else text
  else text.

Definition loads (s : string) : res json :=
  match json_loads s with
  | Some v => Ret v
  | None => Raise JSONDecodeError
  end.

(** [j.setdefault(k, v)]: only a dict has the method. *)
Definition json_setdefault (k : string) (v : json) (j : json) : res json :=
  match j with
  | JObj d => Ret (JObj (setdefault k v d))
  | _ => Raise AttributeError
  end.

Definition degraded_analogy (ai_text : string) : json :=
  JObj {[ "tagline" := JStr ""; "analogy" := JStr ai_text;
          "mapping" := JArr []; "limitations" := JArr [] ]}.

(** The inner [try ... except Exception] around the analogy answer. *)
Definition parse_analogy (ai_text : string) : res json :=
  try_except
    (ai_json ← loads ai_text;
     ai_json ← json_setdefault "tagline" (JStr "") ai_json;
     ai_json ← json_setdefault "analogy" (JStr "") ai_json;
     ai_json ← json_setdefault "mapping" (JArr []) ai_json;
     ai_json ← json_setdefault "limitations" (JArr []) ai_json;
     Ret ai_json)
    (fun _ => Ret (degraded_analogy ai_text)).

Definition degraded_quiz (concept : string) : json :=
  JObj {[ "concept" := JStr concept; "questions" := JArr [] ]}.

(** The inner [try ... except Exception] around the quiz answer. *)
Definition parse_quiz (concept quiz_text : string) : res json :=
  try_except (loads quiz_text) (fun _ => Ret (degraded_quiz concept)).

(** ** POST /generate *)

(** [fresh] is the id the driver gives the inserted document, [now] the
    clock reading.  Returns the outcome and the collection afterwards. *)
Definition generate (req : GenerateRequest.t) (current_user : gmap string claim)
    (now : Z) (fresh : oid) (history : list HistoryDoc.t)
  : res GenerateResponse.t * list HistoryDoc.t :=
  let body : res (GenerateResponse.t * list HistoryDoc.t) :=
    let concept := strip (GenerateRequest.concept req) in
    let level := GenerateRequest.level req in
    if String.eqb concept ""
    then Raise (HTTPException 400 (Lit "Concept must not be empty"))
    else
      ai_text ← message_text (AnalogyPrompt concept level);
      let ai_text := unfence ai_text in
      ai_json ← parse_analogy ai_text;
      quiz_text ← message_text (QuizPrompt concept ai_json);
      let quiz_text := unfence quiz_text in
      quiz_json ← parse_quiz concept quiz_text;
      owner ← getitem current_user "email";
      let history_doc :=
        {| HistoryDoc._id := Oid fresh; HistoryDoc.user_email := owner;
           HistoryDoc.concept := concept; HistoryDoc.level := level;
           HistoryDoc.result := ai_json; HistoryDoc.quiz := quiz_json;
           HistoryDoc.timestamp := now |} in
      let history := insert_one history_doc history in
      Ret ({| GenerateResponse.concept_received := concept;
              GenerateResponse.level := level;
              GenerateResponse.user := current_user !! "email";
              GenerateResponse.result := ai_json;
              GenerateResponse.quiz := quiz_json |}, history) in
  match body with
  | Ret (response, history') => (Ret response, history')
  | Raise e => (Raise (HTTPException 500 (StrOf e)), history)
  end.

(** ** GET /history *)

(** [doc["_id"] = str(doc["_id"])] *)
Definition stringify_id (doc : HistoryDoc.t) : HistoryDoc.t :=
  {| HistoryDoc._id := OidStr (str_id (HistoryDoc._id doc));
     HistoryDoc.user_email := HistoryDoc.user_email doc;
     HistoryDoc.concept := HistoryDoc.concept doc;
     HistoryDoc.level := HistoryDoc.level doc;
     HistoryDoc.result := HistoryDoc.result doc;
     HistoryDoc.quiz := HistoryDoc.quiz doc;
     HistoryDoc.timestamp := HistoryDoc.timestamp doc |}.

Definition get_history (current_user : gmap string claim)
    (history : list HistoryDoc.t) : res (list HistoryDoc.t) :=
  owner ← getitem current_user "email";
  let cursor :=
    find_sorted (fun d => HistoryDoc.user_email d = owner) history in
  Ret (stringify_id <$> cursor).

(** ** DELETE /history/{entry_id} *)

Definition delete_history (entry_id : string)
    (current_user : gmap string claim) (history : list HistoryDoc.t)
  : res delete_response * list HistoryDoc.t :=
  match try_except (ObjectId entry_id)
          (fun _ => Raise (HTTPException 400 (Lit "Invalid entry ID"))) with
  | Raise e => (Raise e, history)
  | Ret obj_id =>
      match getitem current_user "email" with
      | Raise e => (Raise e, history)
      | Ret owner =>
          let '(deleted_count, history') :=
            delete_one
              (fun d => bool_decide (HistoryDoc._id d = Oid obj_id
                                     ∧ HistoryDoc.user_email d = owner))
              history in
          if (deleted_count =? 0)%nat
          then (Raise (HTTPException 404 (Lit "Entry not found or unauthorized")),
                history')
          else (Ret {| status := "success";
                       message := "History entry deleted" |}, history')
      end
  end.

(** ** POST /quiz *)

Definition generate_quiz (req : QuizRequest.t)
    (current_user : gmap string claim) : res json :=
  try_except
    (let concept := strip (QuizRequest.concept req) in
     let analogy_data := QuizRequest.result req in
     if (String.eqb concept "" || (size analogy_data =? 0)%nat)%bool
     then Raise (HTTPException 400 (Lit "Concept and analogy result are required"))
     else
       quiz_text ← message_text (QuizPromptManual concept analogy_data);
       let quiz_text := unfence quiz_text in
       quiz_json ← loads quiz_text;
       Ret quiz_json)
    (fun e => Raise (HTTPException 500 (StrOf e))).

End Handlers.

(** ** GET / and POST /signup *)

Definition root : gmap string string :=
  {[ "status" := "ok";
     "message" := "Instant Analogy Generator backend running" ]}.

Definition signup (bcrypt_hash : string -> string -> string)
    (user : UserCreate.t) (salt : string) (users : list user_doc)
  : res string * list user_doc :=
  create_user bcrypt_hash user salt users.

(** ** The invariant of the history collection *)

(** No two documents share an [_id]. *)
Definition ids_unique (history : list HistoryDoc.t) : Prop :=
  NoDup (HistoryDoc._id <$> history).

(** The document that a successful [generate] stores beside its response. *)
Definition stored_doc (fresh : oid) (owner : claim) (now : Z)
    (response : GenerateResponse.t) : HistoryDoc.t :=
  {| HistoryDoc._id := Oid fresh; HistoryDoc.user_email := owner;
     HistoryDoc.concept := GenerateResponse.concept_received response;
     HistoryDoc.level := GenerateResponse.level response;
     HistoryDoc.result := GenerateResponse.result response;
     HistoryDoc.quiz := GenerateResponse.quiz response;
     HistoryDoc.timestamp := now |}.

End Main.

(* ===================================================================== *)
(** * [test_db.py] *)
(* ===================================================================== *)

Module TestDb.
Import Auth.

Definition test_user : user_doc :=
  {| doc_username := "test"; doc_email := "test@example.com";
     doc_hashed_password := "dummy" |}.

(** [users_collection.delete_one({"email": email})]: removes the first
    match. *)
Fixpoint delete_one (email : string) (users : list user_doc) : list user_doc :=
  match users with
  | [] => []
  | d :: ds =>
      if String.eqb (doc_email d) email then ds else d :: delete_one email ds
  end.

(** [test_connection()] on the collection [users]: the user it fetches (and
    prints) and the collection afterwards. *)
Definition test_connection (users : list user_doc)
  : option user_doc * list user_doc :=
  let users := insert_one test_user users in
  let user := find_one "test@example.com" users in
  let users := delete_one "test@example.com" users in
  (user, users).

End TestDb.

(* ===================================================================== *)
(** * Collaborators and data to run the model on *)
(* ===================================================================== *)

Module Demo.
Import Utils Auth Main.

(** A keyed digest and a serialization. *)
Definition demo_hmac (key msg : string) : string := key ++ ":" ++ msg.

Definition demo_serialize (algorithm : string) (claims : gmap string claim)
  : string :=
  algorithm ++ "." ++
  match claims !! "email" with Some (CStr e) => e | _ => "" end.

(** A hasher and its verifier: the hash is the password after "h:". *)
Definition demo_hash (salt password : string) : string := "h:" ++ password.

Definition demo_verify (password stored : string) : bool :=
  String.eqb ("h:" ++ password) stored.

Definition demo_users : list user_doc :=
  [ {| doc_username := "alice"; doc_email := "real@x.com";
       doc_hashed_password := "h:Abc123!@" |} ].

(** An [ObjectId] parser: 24 hexadecimal digits, kept in lower case. *)
Definition is_hex (a : ascii) : bool :=
  let n := nat_of_ascii a in
  ((48 <=? n) && (n <=? 57) || (65 <=? n) && (n <=? 70)
   || (97 <=? n) && (n <=? 102))%nat.

Definition to_lower (a : ascii) : ascii :=
  let n := nat_of_ascii a in
  if ((65 <=? n) && (n <=? 90))%nat then ascii_of_nat (n + 32) else a.

Fixpoint map_string (f : ascii -> ascii) (s : string) : string :=
  match s with
  | String a s' => String (f a) (map_string f s')
  | EmptyString => EmptyString
  end.

Definition demo_ObjectId (s : string) : res oid :=
  if ((String.length s =? 24)%nat
      && forallb is_hex (list_ascii_of_string s))%bool
  then Ret {| hex := map_string to_lower s |}
  else Raise InvalidId.

Definition demo_entry_id : string := "0123456789abcdef01234567".
Definition demo_oid : oid := {| hex := demo_entry_id |}.

Definition demo_doc (id : string) (owner : string) (t : Z) : HistoryDoc.t :=
  {| HistoryDoc._id := Oid {| hex := id |};
     HistoryDoc.user_email := CStr owner;
     HistoryDoc.concept := "recursion"; HistoryDoc.level := "beginner";
     HistoryDoc.result := JNull; HistoryDoc.quiz := JNull;
     HistoryDoc.timestamp := t |}.

Definition demo_history : list HistoryDoc.t :=
  [ demo_doc "0123456789abcdef01234567" "bob@x.com" 20;
    demo_doc "0123456789abcdef01234568" "alice@x.com" 10;
    demo_doc "0123456789abcdef01234569" "alice@x.com" 30 ].

(** The claims of a token issued to alice. *)
Definition demo_alice : gmap string claim :=
  {[ "email" := CStr "alice@x.com"; "exp" := CInt 4600 ]}.

(** A model that answers every prompt with prose, and a JSON reader that
    knows the empty object only. *)
Definition demo_chat (p : prompt) : res (option string) :=
  Ret (Some "Sorry, here is some prose.").

Definition demo_json_loads (s : string) : option json :=
  if String.eqb s "{}" then Some (JObj ∅) else None.

Definition demo_request : GenerateRequest.t :=
  {| GenerateRequest.concept := " recursion ";
     GenerateRequest.level := "beginner" |}.

Definition demo_response : GenerateResponse.t :=
  {| GenerateResponse.concept_received := "recursion";
     GenerateResponse.level := "beginner";
     GenerateResponse.user := Some (CStr "alice@x.com");
     GenerateResponse.result := degraded_analogy "Sorry, here is some prose.";
     GenerateResponse.quiz := degraded_quiz "recursion" |}.

(** A reading of token strings: "alice-token" is the token the login route
    issues to real@x.com at clock reading 1000; nothing else loads. *)
Definition demo_load_token (s : string) : token :=
  if String.eqb s "alice-token"
  then create_access_token demo_hmac demo_serialize
         {[ "email" := CStr "real@x.com" ]} None 1000
  else Unloadable s.

(** Another id, alice's first entry, and the claims of bob's token. *)
Definition other_oid : oid := {| hex := "0123456789abcdef0123456a" |}.
Definition alice_entry_id : string := "0123456789abcdef01234568".
Definition alice_oid : oid := {| hex := alice_entry_id |}.
Definition demo_bob : gmap string claim := {[ "email" := CStr "bob@x.com" ]}.

(** The end-to-end scenario of the specification: signup, login, one
    generation, listing, deletion, listing. *)
Definition alice_signup : UserCreate.t :=
  {| UserCreate.username := "alice"; UserCreate.email := "a@x.com";
     UserCreate.password := "Abc123!@" |}.

Definition alice_login : UserLogin.t :=
  {| UserLogin.email := "a@x.com"; UserLogin.password := "Abc123!@" |}.

Definition scenario :=
  let '(signed_up, users) := create_user demo_hash alice_signup "salt" [] in
  match login demo_verify demo_hmac demo_serialize alice_login 1000 users with
  | Ret r =>
      match decode_access_token demo_hmac (access_token r) 1001 with
      | Ret (Some current_user) =>
          let '(generated, history) :=
            generate demo_chat demo_json_loads demo_request current_user
              1002 demo_oid [] in
          let listed := get_history current_user history in
          let '(deleted, history) :=
            delete_history demo_ObjectId demo_entry_id current_user history in
          let listed_after := get_history current_user history in
          Some (signed_up, generated, listed, deleted, listed_after)
      | _ => None
      end
  | Raise _ => None
  end.

End Demo.

(* ===================================================================== *)
(** * Facts about the matcher *)
(* ===================================================================== *)

Module RegexFacts.
Import Regex.
#[local] Arguments String.append !s1 s2 : simpl nomatch.

Lemma rep_intro c k pre : forall n pos rest,
  (n <= String.length pre)%nat ->
  all_accept c pre = true ->
  k (pos + String.length pre)%nat rest = true ->
  rep c k n pos (pre ++ rest) = true.
Proof.
  induction pre as [|a pre IH]; intros n pos rest Hn Hall Hk; simpl in *.
  - assert (n = 0%nat) as -> by lia. rewrite Nat.add_0_r in Hk.
    destruct rest; simpl; rewrite Hk; [reflexivity | apply orb_true_r].
  - apply andb_true_iff in Hall as [Ha Hall]. rewrite Ha. simpl.
    rewrite IH; [reflexivity | lia | assumption |].
    replace (S pos + String.length pre)%nat with (pos + S (String.length pre))%nat by lia.
    assumption.
Qed.

Lemma rep_elim c k s : forall n pos,
  rep c k n pos s = true ->
  exists pre rest, s = pre ++ rest /\ (n <= String.length pre)%nat
    /\ all_accept c pre = true /\ k (pos + String.length pre)%nat rest = true.
Proof.
  induction s as [|a s IH]; intros n pos H; simpl in H.
  - apply andb_true_iff in H as [Hn Hk]. apply Nat.eqb_eq in Hn.
    exists "", "". simpl. rewrite Nat.add_0_r. repeat split; [lia | assumption].
  - apply orb_true_iff in H as [H | H].
    + apply andb_true_iff in H as [Ha H].
      destruct (IH _ _ H) as (pre & rest & -> & Hn & Hall & Hk).
      exists (String a pre), rest. simpl. rewrite Ha, Hall.
      repeat split; [lia |].
      replace (pos + S (String.length pre))%nat with (S pos + String.length pre)%nat by lia.
      assumption.
    + apply andb_true_iff in H as [Hn Hk]. apply Nat.eqb_eq in Hn.
      exists "", (String a s). simpl. rewrite Nat.add_0_r.
      repeat split; [lia | assumption].
Qed.
End RegexFacts.

Module PolicyFacts.
Import Regex Auth RegexFacts.
#[local] Arguments String.append !s1 s2 : simpl nomatch.

Lemma length_app (s1 s2 : string) :
  String.length (s1 ++ s2) = (String.length s1 + String.length s2)%nat.
Proof. induction s1 as [|a s1 IH]; simpl; [reflexivity | now rewrite IH]. Qed.

Lemma app_assoc (s1 s2 s3 : string) : (s1 ++ s2) ++ s3 = s1 ++ (s2 ++ s3).
Proof. induction s1 as [|a s1 IH]; simpl; [reflexivity | now rewrite IH]. Qed.

Lemma app_empty_r (s : string) : s ++ "" = s.
Proof. induction s as [|a s IH]; simpl; [reflexivity | now rewrite IH]. Qed.

Lemma has_cons c a s : has c (String a s) = accepts c a || has c s.
Proof. reflexivity. Qed.

Lemma has_app c s1 s2 : has c (s1 ++ s2) = has c s1 || has c s2.
Proof.
  induction s1 as [|a s1 IH]; [reflexivity |].
  simpl append. rewrite !has_cons, IH. apply orb_assoc.
Qed.

Lemma all_accept_app c s1 s2 :
  all_accept c (s1 ++ s2) = all_accept c s1 && all_accept c s2.
Proof.
  induction s1 as [|a s1 IH]; simpl; [reflexivity |].
  rewrite IH. apply andb_assoc.
Qed.

(** A character of the class, and the characters before it. *)
Lemma has_split c s :
  has c s = true ->
  exists pre a rest, s = pre ++ String a rest /\ accepts c a = true.
Proof.
  induction s as [|b s IH]; [discriminate |].
  rewrite has_cons. intros [H | H]%orb_true_iff.
  - exists "", b, s. split; [reflexivity | assumption].
  - destruct (IH H) as (pre & a & rest & -> & Ha).
    exists (String b pre), a, rest. split; [reflexivity | assumption].
Qed.

(** What a lookahead [(?=.*c)] checks. *)
Lemma ahead_elim c s :
  rep Dot (fun _ s' => match s' with
                       | EmptyString => false
                       | String a _ => accepts c a && true
                       end) 0 0 s = true ->
  has c s = true.
Proof.
  intros (pre & rest & -> & _ & _ & Hk)%rep_elim.
  destruct rest as [|a rest]; [discriminate |].
  rewrite andb_true_r in Hk.
  rewrite has_app, has_cons, Hk. now rewrite orb_true_r.
Qed.

Lemma ahead_intro c s :
  has c s = true -> all_accept Dot s = true ->
  rep Dot (fun _ s' => match s' with
                       | EmptyString => false
                       | String a _ => accepts c a && true
                       end) 0 0 s = true.
Proof.
  intros (pre & a & rest & -> & Ha)%has_split Hfree.
  rewrite all_accept_app in Hfree. apply andb_true_iff in Hfree as [Hpre _].
  apply rep_intro; [lia | assumption |]. now rewrite Ha.
Qed.

Lemma at_eol_inv s : at_eol s = true -> s = "" \/ s = String LF "".
Proof.
  destruct s as [|a [|b s]]; simpl; try discriminate; [now left |].
  intros ->%Ascii.eqb_eq. now right.
Qed.

(** The pattern accepts exactly the passwords made of one line that meets
    the policy, followed by at most a single line feed. *)
Lemma pattern_spec password :
  re_match pattern password = true <->
  exists line, (password = line \/ password = line ++ String LF "")
    /\ all_accept Dot line = true /\ meets_policy line = true.
Proof.
  unfold re_match, pattern, ahead. cbn [exec]. rewrite !andb_true_iff. split.
  - intros (_ & Hd & Hl & Hu & Hs & Hlen).
    apply ahead_elim in Hd, Hl, Hu, Hs.
    apply rep_elim in Hlen as (line & rest & -> & Hlen & Hfree & Heol).
    rewrite andb_true_r in Heol. apply at_eol_inv in Heol.
    exists line. split; [|split; [assumption|]].
    + destruct Heol as [-> | ->]; [left; apply app_empty_r | now right].
    + assert (forall c, accepts c LF = false -> has c (line ++ rest) = true ->
                        has c line = true) as Hin.
      { intros c Hc. rewrite has_app.
        destruct Heol as [-> | ->]; [now rewrite orb_false_r |].
        rewrite has_cons, Hc. simpl. now rewrite orb_false_r. }
      unfold meets_policy. rewrite !andb_true_iff. repeat split.
      * apply Nat.leb_le. exact Hlen.
      * now apply Hin.
      * now apply Hin.
      * now apply Hin.
      * now apply Hin.
  - intros (line & Hshape & Hfree & Hpol).
    unfold meets_policy in Hpol. rewrite !andb_true_iff in Hpol.
    destruct Hpol as ((((Hlen & Hd) & Hl) & Hu) & Hs).
    apply Nat.leb_le in Hlen.
    assert (forall c, has c line = true ->
      rep Dot (fun _ s' => match s' with
                           | EmptyString => false
                           | String a _ => accepts c a && true
                           end) 0 0 password = true) as Hahead.
    { intros c (pre & a & rest & -> & Ha)%has_split.
      rewrite all_accept_app in Hfree. apply andb_true_iff in Hfree as [Hpre _].
      assert (exists rest', password = pre ++ String a rest') as [rest' ->].
      { destruct Hshape as [-> | ->]; [now eexists |].
        rewrite app_assoc. simpl. now eexists. }
      apply rep_intro; [lia | assumption |]. now rewrite Ha. }
    repeat split; try (now apply Hahead).
    assert (exists rest, password = line ++ rest /\ at_eol rest = true)
      as (rest & -> & Heol).
    { destruct Hshape as [-> | ->].
      - exists "". now rewrite app_empty_r.
      - now eexists. }
    apply rep_intro; [exact Hlen | assumption |]. now rewrite Heol.
Qed.
End PolicyFacts.

Module AuthFacts.
Import Regex Auth Demo RegexFacts PolicyFacts.
#[local] Arguments String.append !s1 s2 : simpl nomatch.

Lemma meets_policy_trailing_lf line :
  meets_policy line = true -> meets_policy (line ++ String LF "") = true.
Proof.
  unfold meets_policy. rewrite !andb_true_iff, !has_app, length_app.
  intros ((((Hlen & ->) & ->) & ->) & ->). apply Nat.leb_le in Hlen.
  repeat split. apply Nat.leb_le. lia.
Qed.

(** The pattern only accepts passwords that meet the policy. *)
Lemma pattern_sound password :
  re_match pattern password = true -> meets_policy password = true.
Proof.
  intros (line & [-> | ->] & _ & Hpol)%pattern_spec;
    [assumption | now apply meets_policy_trailing_lf].
Qed.

(** It accepts all of them that hold no line feed. *)
Lemma pattern_complete password :
  meets_policy password = true -> all_accept Dot password = true ->
  re_match pattern password = true.
Proof. intros Hpol Hfree. apply pattern_spec. exists password. auto. Qed.

Lemma inner_lf_not_one_line p q line :
  q <> "" -> p ++ String LF q = line ++ String LF "" ->
  all_accept Dot line = false.
Proof.
  revert line. induction p as [|a p IH]; intros line Hq Heq.
  - destruct line as [|b line]; simpl in Heq.
    + congruence.
    + injection Heq as <- _. reflexivity.
  - destruct line as [|b line]; simpl in Heq.
    + injection Heq as _ Heq. destruct p; discriminate.
    + injection Heq as <- Heq. simpl. rewrite (IH _ Hq Heq). apply andb_false_r.
Qed.

(** A line feed anywhere but at the very end makes the pattern fail. *)
Lemma pattern_rejects_inner_lf p q :
  q <> "" -> re_match pattern (p ++ String LF q) = false.
Proof.
  intros Hq. apply not_true_is_false.
  intros (line & Hshape & Hfree & _)%pattern_spec.
  destruct Hshape as [<- | Heq].
  - rewrite all_accept_app in Hfree. simpl in Hfree.
    rewrite andb_false_r in Hfree. discriminate.
  - rewrite (inner_lf_not_one_line _ _ _ Hq Heq) in Hfree. discriminate.
Qed.

Section CreateUser.
Variable bcrypt_hash : string -> string -> string.

(** A password that violates the policy is refused with the policy error,
    and the collection is left as it was. *)
Lemma create_user_policy_violation user salt users :
  meets_policy (UserCreate.password user) = false ->
  create_user bcrypt_hash user salt users
  = (Raise (HTTPException 400 policy_detail), users).
Proof.
  intros Hpol. unfold create_user, validate_password.
  destruct (re_match pattern (UserCreate.password user)) eqn:Hm; [|reflexivity].
  apply pattern_sound in Hm. congruence.
Qed.

(** A one-line password that meets the policy is accepted when the email is
    new, and the user is inserted. *)
Lemma create_user_policy_ok user salt users :
  meets_policy (UserCreate.password user) = true ->
  all_accept Dot (UserCreate.password user) = true ->
  find_one (UserCreate.email user) users = None ->
  create_user bcrypt_hash user salt users
  = (Ret "User created successfully",
     (users ++ [ {| doc_username := UserCreate.username user;
                    doc_email := UserCreate.email user;
                    doc_hashed_password :=
                      bcrypt_hash salt (UserCreate.password user) |} ])%list).
Proof.
  intros Hpol Hfree Hnew. unfold create_user, validate_password.
  rewrite (pattern_complete _ Hpol Hfree), Hnew. reflexivity.
Qed.

(** C1 (the code departs from the claim): a password with a line feed before
    its last character is refused with the policy error even when it has
    eight characters, a digit, a lowercase and an uppercase letter and a
    special character, because [.] does not match a line feed. *)
Theorem create_user_rejects_inner_line_feed user salt users p q :
  UserCreate.password user = p ++ String LF q -> q <> "" ->
  create_user bcrypt_hash user salt users
  = (Raise (HTTPException 400 policy_detail), users).
Proof.
  intros Hpw Hq. unfold create_user, validate_password.
  rewrite Hpw, (pattern_rejects_inner_lf _ _ Hq). reflexivity.
Qed.

End CreateUser.

(** The failing input: "Abcdef1!", a line feed, "xyz" meets the policy as
    worded and is refused. *)
Lemma create_user_rejects_inner_line_feed_witness :
  let user := {| UserCreate.username := "alice";
                 UserCreate.email := "a@x.com";
                 UserCreate.password := "Abcdef1!" ++ String LF "xyz" |} in
  meets_policy (UserCreate.password user) = true
  /\ find_one (UserCreate.email user) [] = None
  /\ create_user demo_hash user "salt" []
     = (Raise (HTTPException 400 policy_detail), []).
Proof.
  split; [reflexivity | split; [reflexivity |]].
  apply (create_user_rejects_inner_line_feed demo_hash
           _ "salt" [] "Abcdef1!" "xyz"); [reflexivity | discriminate].
Defined.

End AuthFacts.

(* ===================================================================== *)
(** * Facts about the session tokens *)
(* ===================================================================== *)

Module UtilsFacts.
Import Utils Demo.

Section Tokens.
Variable hmac : string -> string -> string.
Variable serialize : string -> gmap string claim -> string.

Lemma jwt_decode_encode claims key algorithm now :
  jwt_decode hmac (jwt_encode hmac serialize claims key algorithm) key
    [algorithm] now
  = (_ ← validate_exp claims now; Ret claims).
Proof.
  unfold jwt_decode, jwt_encode. cbn [alg signature signing_input payload].
  rewrite bool_decide_eq_true_2 by set_solver.
  rewrite String.eqb_refl. reflexivity.
Qed.





End Tokens.




End UtilsFacts.

(* ===================================================================== *)
(** * Facts about the handlers *)
(* ===================================================================== *)

Module MainFacts.
Import Utils Auth Main Demo.

Section Login.
Variable bcrypt_verify : string -> string -> bool.
Variable hmac : string -> string -> string.
Variable serialize : string -> gmap string claim -> string.





(** A caller that [get_current_user] lets through carries an email. *)
Lemma get_current_user_email load_token authorization now payload :
  get_current_user hmac load_token authorization now = Ret payload ->
  is_Some (payload !! "email").
Proof.
  unfold get_current_user.
  destruct (negb (startswith _ _)); [discriminate |].
  destruct (split " " authorization !! 1%nat); [| discriminate].
  cbn [mbind res_bind].
  destruct (decode_access_token hmac _ now) as [[p |] | e];
    cbn [mbind res_bind]; try discriminate.
  destruct (bool_decide (is_Some (p !! "email"))) eqn:Hemail;
    cbn [negb]; [| discriminate].
  intros [= <-]. now apply bool_decide_eq_true_1 in Hemail.
Qed.

(** C6 (as amended): on a match [authenticate_user] returns the stored
    record as a [UserInDB], hash included; the login route reads only its
    email, and answers with a token issued for that email and the token
    type. *)
Theorem authenticate_user_match user now users stored :
  find_one (UserLogin.email user) users = Some stored ->
  bcrypt_verify (UserLogin.password user) (doc_hashed_password stored) = true ->
  authenticate_user bcrypt_verify (UserLogin.email user)
    (UserLogin.password user) users
  = AuthUser {| UserInDB.username := doc_username stored;
                UserInDB.email := doc_email stored;
                UserInDB.hashed_password := doc_hashed_password stored |}
  /\ login bcrypt_verify hmac serialize user now users
     = Ret {| access_token :=
                create_access_token hmac serialize
                  {[ "email" := CStr (doc_email stored) ]} None now;
              token_type := "bearer" |}.
Proof.
  intros Hfind Hverify. unfold login, authenticate_user, verify_password.
  rewrite Hfind, Hverify. split; reflexivity.
Qed.

End Login.


Lemma authenticate_user_match_witness :
  let user := {| UserLogin.email := "real@x.com";
                 UserLogin.password := "Abc123!@" |} in
  authenticate_user demo_verify "real@x.com" "Abc123!@" demo_users
  = AuthUser {| UserInDB.username := "alice"; UserInDB.email := "real@x.com";
                UserInDB.hashed_password := "h:Abc123!@" |}
  /\ login demo_verify demo_hmac demo_serialize
       user 1000 demo_users
     = Ret {| access_token :=
                create_access_token demo_hmac
                  demo_serialize
                  {[ "email" := CStr "real@x.com" ]} None 1000;
              token_type := "bearer" |}.
Proof.
  apply (authenticate_user_match demo_verify demo_hmac
           demo_serialize
           {| UserLogin.email := "real@x.com";
              UserLogin.password := "Abc123!@" |}
           1000 demo_users
           {| doc_username := "alice"; doc_email := "real@x.com";
              doc_hashed_password := "h:Abc123!@" |});
    reflexivity.
Defined.

(** C6 as stated fails: the record [authenticate_user] returns is not the
    public record (username, email); it carries the stored hash. *)
Lemma authenticate_user_returns_hash :
  let returned := {| UserInDB.username := "alice";
                     UserInDB.email := "real@x.com";
                     UserInDB.hashed_password := "h:Abc123!@" |} in
  authenticate_user demo_verify "real@x.com" "Abc123!@" demo_users
  = AuthUser returned
  /\ UserInDB.dict returned !! "hashed_password" = Some "h:Abc123!@"
  /\ UserInDB.public_record returned !! "hashed_password" = None.
Proof. split; [reflexivity | split; reflexivity]. Qed.

(** ** The history collection *)

#[local] Instance newer_first_trans : Transitive newer_first.
Proof. unfold newer_first. intros a b c ? ?. lia. Qed.

#[local] Instance newer_first_total : Total newer_first.
Proof. unfold newer_first. intros a b. lia. Qed.

Lemma delete_one_no_match matches history :
  (forall d, d ∈ history -> matches d = false) ->
  delete_one matches history = (0%nat, history).
Proof.
  induction history as [|d ds IH]; intros Hno; simpl; [reflexivity |].
  rewrite (Hno d) by set_solver. rewrite IH; [reflexivity |].
  intros d' Hd'. apply Hno. set_solver.
Qed.

Lemma delete_one_deleted matches history n history' :
  delete_one matches history = (n, history') -> n <> 0%nat ->
  exists d, d ∈ history /\ matches d = true.
Proof.
  revert n history'. induction history as [|d ds IH]; intros n h' Hdel Hn;
    simpl in Hdel.
  - congruence.
  - destruct (matches d) eqn:Hd.
    + exists d. split; [set_solver | assumption].
    + destruct (delete_one matches ds) as [m ds'] eqn:Hds.
      injection Hdel as <- <-.
      destruct (IH _ _ eq_refl Hn) as (d' & Hin & Hm).
      exists d'. split; [set_solver | assumption].
Qed.

Lemma delete_one_match matches history d :
  d ∈ history -> matches d = true ->
  exists history', delete_one matches history = (1%nat, history')
    /\ List.length history = S (List.length history').
Proof.
  induction history as [|d' ds IH]; intros Hin Hm; [set_solver |]. simpl.
  destruct (matches d') eqn:Hd'; [eexists; split; reflexivity |].
  assert (d ∈ ds) as Hin' by (apply elem_of_cons in Hin as [-> |]; [congruence | assumption]).
  destruct (IH Hin' Hm) as (h' & -> & Hlen).
  eexists. split; [reflexivity |]. simpl. now rewrite Hlen.
Qed.

(** ** DELETE /history/{entry_id} *)

Section Delete.
Variable ObjectId : string -> res oid.

(** An [entry_id] that is not an [ObjectId] is answered 400 before the
    collection is consulted. *)
Lemma delete_history_invalid_id entry_id current_user history :
  ObjectId entry_id = Raise InvalidId ->
  delete_history ObjectId entry_id current_user history
  = (Raise (HTTPException 400 (Lit "Invalid entry ID")), history).
Proof. unfold delete_history. now intros ->. Qed.

(** The owner deletes an entry: one document leaves the collection. *)
Lemma delete_history_owner entry_id obj_id current_user owner history d :
  ObjectId entry_id = Ret obj_id ->
  current_user !! "email" = Some owner ->
  d ∈ history -> HistoryDoc._id d = Oid obj_id ->
  HistoryDoc.user_email d = owner ->
  exists history',
    delete_history ObjectId entry_id current_user history
    = (Ret {| status := "success"; message := "History entry deleted" |},
       history')
    /\ List.length history = S (List.length history').
Proof.
  intros Hid Hcu Hin Hd Ho. unfold delete_history, getitem.
  rewrite Hid, Hcu. cbn [try_except].
  edestruct (delete_one_match
               (fun d => bool_decide (HistoryDoc._id d = Oid obj_id
                                      ∧ HistoryDoc.user_email d = owner))
               history d) as (h' & -> & Hlen);
    [assumption | now apply bool_decide_eq_true_2 |].
  exists h'. split; [reflexivity | assumption].
Qed.

(** C7: for the id of no entry, and for the id of an entry owned by someone
    else, the delete answers the same 404 and leaves the collection as it
    was; it succeeds only when an entry has the id and the caller's email. *)
Theorem delete_history_not_found_or_unauthorized
    entry_id obj_id current_user owner history :
  ObjectId entry_id = Ret obj_id ->
  current_user !! "email" = Some owner ->
  (id_absent obj_id history \/ owner_differs obj_id owner history ->
   delete_history ObjectId entry_id current_user history
   = (Raise (HTTPException 404 (Lit "Entry not found or unauthorized")),
      history))
  /\ (forall response history',
        delete_history ObjectId entry_id current_user history = (Ret response, history') ->
        exists d, d ∈ history /\ HistoryDoc._id d = Oid obj_id
                  /\ HistoryDoc.user_email d = owner).
Proof.
  intros Hid Hcu. unfold delete_history, getitem.
  rewrite Hid, Hcu. cbn [try_except]. split.
  - intros Hcause. rewrite delete_one_no_match; [reflexivity |].
    intros d Hin. apply bool_decide_eq_false_2. intros [Hd Ho].
    destruct Hcause as [Habsent | [_ Hother]].
    + now apply (Habsent d).
    + now apply (Hother d).
  - intros response history'.
    destruct (delete_one _ history) as [n h'] eqn:Hdel.
    destruct (Nat.eqb_spec n 0) as [-> | Hn]; [discriminate |].
    intros _.
    destruct (delete_one_deleted _ _ _ _ Hdel Hn) as (d & Hin & Hm).
    apply bool_decide_eq_true_1 in Hm as [Hd Ho]. eauto.
Qed.

End Delete.

(** ** GET /history *)

Lemma stringify_id_timestamp d :
  HistoryDoc.timestamp (stringify_id d) = HistoryDoc.timestamp d.
Proof. reflexivity. Qed.

(** C8: the history route returns the entries whose owner is the caller's
    email and no others (each once, with its id as a string), newest
    first. *)
Theorem get_history_owned_newest_first current_user owner history :
  current_user !! "email" = Some owner ->
  exists docs,
    get_history current_user history = Ret docs
    /\ docs ≡ₚ stringify_id <$>
                filter (fun d => HistoryDoc.user_email d = owner) history
    /\ StronglySorted newer_first docs
    /\ forall d, d ∈ docs -> HistoryDoc.user_email d = owner.
Proof.
  intros Hcu. unfold get_history, getitem, find_sorted. rewrite Hcu.
  eexists. split; [reflexivity |].
  assert (stringify_id <$>
            merge_sort newer_first
              (filter (fun d => HistoryDoc.user_email d = owner) history)
          ≡ₚ stringify_id <$>
               filter (fun d => HistoryDoc.user_email d = owner) history)
    as Hperm by (now rewrite merge_sort_Permutation).
  split; [exact Hperm | split].
  - apply (StronglySorted_fmap _ newer_first newer_first);
      [| apply StronglySorted_merge_sort; apply _].
    intros a b Hab. exact Hab.
  - intros d Hd. rewrite Hperm in Hd.
    apply list_elem_of_fmap in Hd as (d' & -> & Hd').
    apply list_elem_of_filter in Hd' as [Ho _]. exact Ho.
Qed.


Lemma delete_history_not_found_or_unauthorized_witness :
  owner_differs demo_oid (CStr "alice@x.com") demo_history
  /\ delete_history demo_ObjectId demo_entry_id demo_alice demo_history
     = (Raise (HTTPException 404 (Lit "Entry not found or unauthorized")),
        demo_history).
Proof.
  assert (owner_differs demo_oid (CStr "alice@x.com") demo_history) as Hother.
  { split.
    - eexists. split; [apply list_elem_of_here | reflexivity].
    - intros d Hd Hid.
      repeat (apply elem_of_cons in Hd as [-> | Hd]); try discriminate.
      inversion Hd. }
  split; [exact Hother |].
  apply (delete_history_not_found_or_unauthorized demo_ObjectId
           demo_entry_id demo_oid
           demo_alice (CStr "alice@x.com") demo_history);
    [reflexivity | reflexivity | right; exact Hother].
Defined.

Lemma get_history_owned_newest_first_witness :
  exists docs,
    get_history demo_alice demo_history = Ret docs
    /\ docs ≡ₚ stringify_id <$>
                filter (fun d => HistoryDoc.user_email d = CStr "alice@x.com")
                  demo_history
    /\ StronglySorted newer_first docs
    /\ forall d, d ∈ docs -> HistoryDoc.user_email d = CStr "alice@x.com".
Proof.
  apply (get_history_owned_newest_first demo_alice (CStr "alice@x.com")
           demo_history).
  reflexivity.
Defined.

Example get_history_demo :
  get_history demo_alice demo_history
  = Ret [ stringify_id (demo_doc "0123456789abcdef01234569" "alice@x.com" 30);
          stringify_id (demo_doc "0123456789abcdef01234568" "alice@x.com" 10) ].
Proof. vm_compute. reflexivity. Qed.

(** ** Reading the model's answer *)

Lemma setdefault_same k v (d : gmap string json) :
  is_Some (setdefault k v d !! k).
Proof.
  unfold setdefault. destruct (d !! k) eqn:Hk; [now rewrite Hk |].
  rewrite lookup_insert_eq. eauto.
Qed.

Lemma setdefault_keeps k v k' (d : gmap string json) :
  is_Some (d !! k') -> is_Some (setdefault k v d !! k').
Proof.
  unfold setdefault. destruct (d !! k) eqn:Hk; [trivial |].
  intros Hk'. destruct (decide (k = k')) as [-> | Hne].
  - rewrite lookup_insert_eq. eauto.
  - now rewrite lookup_insert_ne.
Qed.

Lemma degraded_analogy_keys ai_text : has_analogy_keys (degraded_analogy ai_text).
Proof.
  intros k Hk. unfold analogy_keys in Hk.
  repeat (apply elem_of_cons in Hk as [-> | Hk]); try (eexists; reflexivity).
  inversion Hk.
Qed.

Section Handlers.
Variable chat : prompt -> res (option string).
Variable json_loads : string -> option json.

(** An answer that is not JSON becomes the fallback object, with the answer
    in its [analogy] field. *)
Lemma parse_analogy_unparsable ai_text :
  json_loads ai_text = None ->
  parse_analogy json_loads ai_text = Ret (degraded_analogy ai_text).
Proof. unfold parse_analogy, loads. now intros ->. Qed.

(** An answer that is not JSON becomes the fallback quiz. *)
Lemma parse_quiz_unparsable concept quiz_text :
  json_loads quiz_text = None ->
  parse_quiz json_loads concept quiz_text = Ret (degraded_quiz concept).
Proof. unfold parse_quiz, loads. now intros ->. Qed.

(** Whatever the answer, the analogy parser returns a dict with the four
    keys. *)
Lemma parse_analogy_keys ai_text :
  exists ai_json,
    parse_analogy json_loads ai_text = Ret ai_json /\ has_analogy_keys ai_json.
Proof.
  unfold parse_analogy, loads.
  destruct (json_loads ai_text) as [[| b | n | s | l | d] |];
    try (eexists; split; [reflexivity | apply degraded_analogy_keys]).
  eexists. split; [reflexivity |].
  intros k Hk. unfold analogy_keys in Hk.
  repeat (apply elem_of_cons in Hk as [-> | Hk]);
    [ do 3 apply setdefault_keeps; apply setdefault_same
    | do 2 apply setdefault_keeps; apply setdefault_same
    | apply setdefault_keeps; apply setdefault_same
    | apply setdefault_same
    | inversion Hk ].
Qed.

Example unfence_fenced :
  unfence ("```json" ++ String LF "{}" ++ String LF "```") = "{}".
Proof. reflexivity. Qed.

Example unfence_plain : unfence "{}" = "{}".
Proof. reflexivity. Qed.

(** ** POST /generate *)

(** C5 (the code departs from the claim): a concept that is empty once
    stripped raises the 400 inside the handler's own [try], whose
    [except Exception] turns it into a 500; the collection is untouched. *)
Theorem generate_empty_concept req current_user now fresh history :
  strip (GenerateRequest.concept req) = "" ->
  generate chat json_loads req current_user now fresh history
  = (Raise (HTTPException 500
              (StrOf (HTTPException 400 (Lit "Concept must not be empty")))),
     history).
Proof. intros Hempty. unfold generate. rewrite Hempty. reflexivity. Qed.

(** C10: a successful answer of the generate route carries a [result] that
    is a dict with the keys tagline, analogy, mapping and limitations. *)
Theorem generate_result_keys req current_user now fresh history response history' :
  generate chat json_loads req current_user now fresh history
  = (Ret response, history') ->
  has_analogy_keys (GenerateResponse.result response).
Proof.
  unfold generate.
  destruct (String.eqb _ ""); [discriminate |].
  destruct (message_text chat _) as [ai_text | e]; [| discriminate].
  cbn [mbind res_bind].
  destruct (parse_analogy_keys (unfence ai_text)) as (ai_json & -> & Hkeys).
  cbn [mbind res_bind].
  destruct (message_text chat _) as [quiz_text | e]; [| discriminate].
  cbn [mbind res_bind].
  destruct (parse_quiz json_loads _ _) as [quiz_json | e]; [| discriminate].
  cbn [mbind res_bind].
  destruct (getitem current_user "email") as [owner | e]; [| discriminate].
  cbn [mbind res_bind]. intros [= <- _]. exact Hkeys.
Qed.

(** With an analogy answer that is not JSON the generate route still
    succeeds: the result is the fallback object and the entry is stored. *)
Lemma generate_unparsable_analogy
    req current_user now fresh history answer quiz_answer owner :
  let concept := strip (GenerateRequest.concept req) in
  let ai_text := unfence (strip answer) in
  concept <> "" ->
  chat (AnalogyPrompt concept (GenerateRequest.level req)) = Ret (Some answer) ->
  json_loads ai_text = None ->
  chat (QuizPrompt concept (degraded_analogy ai_text)) = Ret (Some quiz_answer) ->
  current_user !! "email" = Some owner ->
  exists quiz_json,
    parse_quiz json_loads concept (unfence (strip quiz_answer)) = Ret quiz_json
    /\ generate chat json_loads req current_user now fresh history
       = (Ret {| GenerateResponse.concept_received := concept;
                 GenerateResponse.level := GenerateRequest.level req;
                 GenerateResponse.user := Some owner;
                 GenerateResponse.result := degraded_analogy ai_text;
                 GenerateResponse.quiz := quiz_json |},
          insert_one
            {| HistoryDoc._id := Oid fresh; HistoryDoc.user_email := owner;
               HistoryDoc.concept := concept;
               HistoryDoc.level := GenerateRequest.level req;
               HistoryDoc.result := degraded_analogy ai_text;
               HistoryDoc.quiz := quiz_json;
               HistoryDoc.timestamp := now |} history).
Proof.
  intros concept ai_text Hne Hchat Hloads Hquiz Hcu.
  assert (exists quiz_json,
             parse_quiz json_loads concept (unfence (strip quiz_answer))
             = Ret quiz_json) as [quiz_json Hq].
  { unfold parse_quiz, loads.
    destruct (json_loads (unfence (strip quiz_answer))); eexists; reflexivity. }
  exists quiz_json. split; [exact Hq |].
  unfold generate, message_text, getitem. fold concept.
  apply String.eqb_neq in Hne. rewrite Hne, Hchat. cbn [mbind res_bind].
  fold ai_text. rewrite (parse_analogy_unparsable _ Hloads).
  cbn [mbind res_bind]. rewrite Hquiz. cbn [mbind res_bind].
  rewrite Hq. cbn [mbind res_bind]. rewrite Hcu. reflexivity.
Qed.

(** ** POST /quiz *)

(** C9 (the code departs from the claim): the quiz route has no fallback;
    an answer that is not JSON fails the request with a 500. *)
Theorem generate_quiz_unparsable req current_user answer :
  let concept := strip (QuizRequest.concept req) in
  concept <> "" ->
  size (QuizRequest.result req) <> 0%nat ->
  chat (QuizPromptManual concept (QuizRequest.result req)) = Ret (Some answer) ->
  json_loads (unfence (strip answer)) = None ->
  generate_quiz chat json_loads req current_user
  = Raise (HTTPException 500 (StrOf JSONDecodeError)).
Proof.
  intros concept Hne Hsize Hchat Hloads.
  unfold generate_quiz, message_text, loads. fold concept.
  apply String.eqb_neq in Hne. apply Nat.eqb_neq in Hsize.
  rewrite Hne, Hsize, Hchat. cbn [mbind res_bind orb].
  rewrite Hloads. reflexivity.
Qed.

End Handlers.

Lemma generate_empty_concept_witness :
  let req := {| GenerateRequest.concept := "   ";
                GenerateRequest.level := "beginner" |} in
  generate demo_chat demo_json_loads req demo_alice 1000 demo_oid demo_history
  = (Raise (HTTPException 500
              (StrOf (HTTPException 400 (Lit "Concept must not be empty")))),
     demo_history).
Proof.
  apply (generate_empty_concept demo_chat demo_json_loads
           {| GenerateRequest.concept := "   ";
              GenerateRequest.level := "beginner" |}
           demo_alice 1000 demo_oid demo_history).
  reflexivity.
Defined.

Lemma generate_quiz_unparsable_witness :
  let req := {| QuizRequest.concept := "recursion";
                QuizRequest.result := {[ "analogy" := JStr "a mirror" ]} |} in
  generate_quiz demo_chat demo_json_loads req demo_alice
  = Raise (HTTPException 500 (StrOf JSONDecodeError)).
Proof.
  apply (generate_quiz_unparsable demo_chat demo_json_loads
           {| QuizRequest.concept := "recursion";
              QuizRequest.result := {[ "analogy" := JStr "a mirror" ]} |}
           demo_alice "Sorry, here is some prose.").
  - discriminate.
  - cbn [QuizRequest.result]. rewrite map_size_singleton. discriminate.
  - reflexivity.
  - reflexivity.
Defined.

Lemma generate_demo :
  generate demo_chat demo_json_loads demo_request demo_alice 1000 demo_oid []
  = (Ret demo_response,
     [ {| HistoryDoc._id := Oid demo_oid;
          HistoryDoc.user_email := CStr "alice@x.com";
          HistoryDoc.concept := "recursion"; HistoryDoc.level := "beginner";
          HistoryDoc.result := degraded_analogy "Sorry, here is some prose.";
          HistoryDoc.quiz := degraded_quiz "recursion";
          HistoryDoc.timestamp := 1000 |} ]).
Proof. reflexivity. Qed.

(** An answer that parses with keys missing gets the defaults. *)
Example parse_analogy_defaults :
  parse_analogy demo_json_loads "{}"
  = Ret (JObj {[ "tagline" := JStr ""; "analogy" := JStr "";
                 "mapping" := JArr []; "limitations" := JArr [] ]}).
Proof. reflexivity. Qed.

(** The scenario of the specification runs as it says: 200s throughout, one
    entry listed after the generation and none after the deletion. *)
Example end_to_end :
  scenario
  = Some (Ret "User created successfully",
          Ret {| GenerateResponse.concept_received := "recursion";
                 GenerateResponse.level := "beginner";
                 GenerateResponse.user := Some (CStr "a@x.com");
                 GenerateResponse.result :=
                   degraded_analogy "Sorry, here is some prose.";
                 GenerateResponse.quiz := degraded_quiz "recursion" |},
          Ret [ {| HistoryDoc._id := OidStr demo_entry_id;
                   HistoryDoc.user_email := CStr "a@x.com";
                   HistoryDoc.concept := "recursion";
                   HistoryDoc.level := "beginner";
                   HistoryDoc.result :=
                     degraded_analogy "Sorry, here is some prose.";
                   HistoryDoc.quiz := degraded_quiz "recursion";
                   HistoryDoc.timestamp := 1002 |} ],
          Ret {| status := "success"; message := "History entry deleted" |},
          Ret []).
Proof. vm_compute. reflexivity. Qed.

Lemma generate_result_keys_witness :
  has_analogy_keys (GenerateResponse.result demo_response).
Proof.
  apply (generate_result_keys demo_chat demo_json_loads demo_request
           demo_alice 1000 demo_oid [] demo_response _ generate_demo).
Defined.

End MainFacts.

(* ===================================================================== *)
(** * More on signup and credentials *)
(* ===================================================================== *)

Module AuthMore.
Import Regex Utils Auth Main Demo RegexFacts PolicyFacts AuthFacts.
#[local] Arguments String.append !s1 s2 : simpl nomatch.

Lemma find_one_email email users user :
  find_one email users = Some user -> doc_email user = email /\ user ∈ users.
Proof.
  unfold find_one. intros H. apply find_some in H as [Hin Heq].
  apply String.eqb_eq in Heq. split; [assumption | now apply list_elem_of_In].
Qed.


Lemma find_one_snoc email users d :
  find_one email (users ++ [d])%list
  = match find_one email users with
    | Some u => Some u
    | None => if String.eqb (doc_email d) email then Some d else None
    end.
Proof.
  unfold find_one. induction users as [|u us IH]; simpl; [reflexivity |].
  destruct (String.eqb (doc_email u) email); [reflexivity | exact IH].
Qed.

(** X1: [validate_password] accepts exactly the passwords made of one line
    that meets the policy, followed by at most one line feed; every other
    password gets the 400 with the policy text. *)
Theorem validate_password_accepts password :
  (validate_password password = Ret () <->
   exists line, (password = line \/ password = line ++ String LF "")
     /\ all_accept Dot line = true /\ meets_policy line = true)
  /\ (validate_password password = Ret ()
      \/ validate_password password = Raise (HTTPException 400 policy_detail)).
Proof.
  unfold validate_password. rewrite <- pattern_spec.
  destruct (re_match pattern password); simpl; split; auto; split;
    congruence.
Qed.

Section Signup.
Variable bcrypt_hash : string -> string -> string.
Variable bcrypt_verify : string -> string -> bool.
Variable hmac : string -> string -> string.
Variable serialize : string -> gmap string claim -> string.

(** The three outcomes of [create_user]. *)
Lemma create_user_cases user salt users :
  (re_match pattern (UserCreate.password user) = false
   /\ create_user bcrypt_hash user salt users
      = (Raise (HTTPException 400 policy_detail), users))
  \/ (re_match pattern (UserCreate.password user) = true
      /\ (exists u, find_one (UserCreate.email user) users = Some u)
      /\ create_user bcrypt_hash user salt users
         = (Raise (HTTPException 400 (Lit "Email already registered")), users))
  \/ (re_match pattern (UserCreate.password user) = true
      /\ find_one (UserCreate.email user) users = None
      /\ create_user bcrypt_hash user salt users
         = (Ret "User created successfully",
            (users ++ [ {| doc_username := UserCreate.username user;
                           doc_email := UserCreate.email user;
                           doc_hashed_password :=
                             bcrypt_hash salt (UserCreate.password user) |} ])%list)).
Proof.
  unfold create_user, validate_password.
  destruct (re_match pattern (UserCreate.password user)); simpl; [| now left].
  right. destruct (find_one (UserCreate.email user) users) eqn:Hfind.
  - left. eauto.
  - right. auto.
Qed.



(** X4: after a successful signup the same email and password authenticate
    (when the hasher's verifier accepts the hash it made): the stored
    record comes back and the login route issues a token for the email. *)
Theorem signup_then_login user salt users message users' now :
  signup bcrypt_hash user salt users = (Ret message, users') ->
  bcrypt_verify (UserCreate.password user)
    (bcrypt_hash salt (UserCreate.password user)) = true ->
  authenticate_user bcrypt_verify (UserCreate.email user)
    (UserCreate.password user) users'
  = AuthUser {| UserInDB.username := UserCreate.username user;
                UserInDB.email := UserCreate.email user;
                UserInDB.hashed_password :=
                  bcrypt_hash salt (UserCreate.password user) |}
  /\ login bcrypt_verify hmac serialize
       {| UserLogin.email := UserCreate.email user;
          UserLogin.password := UserCreate.password user |} now users'
     = Ret {| access_token :=
                create_access_token hmac serialize
                  {[ "email" := CStr (UserCreate.email user) ]} None now;
              token_type := "bearer" |}.
Proof.
  unfold signup. intros Hcreate Hverify.
  destruct (create_user_cases user salt users)
    as [[_ H] | [(_ & _ & H) | (_ & Hnew & H)]];
    rewrite H in Hcreate; try discriminate.
  injection Hcreate as _ <-.
  unfold login, authenticate_user, verify_password. cbn [UserLogin.email UserLogin.password].
  rewrite find_one_snoc, Hnew. cbn [doc_email].
  rewrite String.eqb_refl. cbn [doc_email doc_hashed_password doc_username].
  rewrite Hverify. split; reflexivity.
Qed.

(** X5: a signup, whatever its outcome, changes nothing for the other
    emails: [authenticate_user] answers for them as before. *)
Theorem signup_other_users user salt users other password :
  other <> UserCreate.email user ->
  authenticate_user bcrypt_verify other password
    (signup bcrypt_hash user salt users).2
  = authenticate_user bcrypt_verify other password users.
Proof.
  intros Hother. unfold signup, authenticate_user.
  destruct (create_user_cases user salt users)
    as [[_ ->] | [(_ & _ & ->) | (_ & _ & ->)]]; simpl; try reflexivity.
  rewrite find_one_snoc. cbn [doc_email].
  destruct (find_one other users); [reflexivity |].
  destruct (String.eqb_spec (UserCreate.email user) other); [congruence | reflexivity].
Qed.

(** X25: once a signup has succeeded, a second signup with the same email
    and a password the policy accepts is refused as "Email already
    registered", and the first user's document stays as it is. *)
Theorem signup_twice user salt users message users' again salt' :
  signup bcrypt_hash user salt users = (Ret message, users') ->
  UserCreate.email again = UserCreate.email user ->
  validate_password (UserCreate.password again) = Ret () ->
  signup bcrypt_hash again salt' users'
  = (Raise (HTTPException 400 (Lit "Email already registered")), users').
Proof.
  unfold signup. intros Hcreate Hemail Hvalid.
  destruct (create_user_cases user salt users)
    as [[_ H] | [(_ & _ & H) | (_ & Hnew & H)]];
    rewrite H in Hcreate; try discriminate.
  injection Hcreate as _ <-.
  unfold create_user. rewrite Hvalid, Hemail, find_one_snoc, Hnew.
  cbn [doc_email]. now rewrite String.eqb_refl.
Qed.

End Signup.



Lemma signup_then_login_witness :
  authenticate_user demo_verify "a@x.com" "Abc123!@"
    (demo_users ++ [ {| doc_username := "alice"; doc_email := "a@x.com";
                        doc_hashed_password := "h:Abc123!@" |} ])%list
  = AuthUser {| UserInDB.username := "alice"; UserInDB.email := "a@x.com";
                UserInDB.hashed_password := "h:Abc123!@" |}
  /\ login demo_verify demo_hmac demo_serialize alice_login 1000
       (demo_users ++ [ {| doc_username := "alice"; doc_email := "a@x.com";
                           doc_hashed_password := "h:Abc123!@" |} ])%list
     = Ret {| access_token :=
                create_access_token demo_hmac demo_serialize
                  {[ "email" := CStr "a@x.com" ]} None 1000;
              token_type := "bearer" |}.
Proof.
  apply (signup_then_login demo_hash demo_verify demo_hmac demo_serialize
           alice_signup "salt" demo_users "User created successfully" _ 1000);
    reflexivity.
Defined.

Lemma signup_other_users_witness :
  authenticate_user demo_verify "real@x.com" "Abc123!@"
    (signup demo_hash alice_signup "salt" demo_users).2
  = authenticate_user demo_verify "real@x.com" "Abc123!@" demo_users.
Proof.
  apply (signup_other_users demo_hash demo_verify alice_signup "salt"
           demo_users "real@x.com" "Abc123!@").
  discriminate.
Defined.

Lemma signup_twice_witness :
  signup demo_hash
    {| UserCreate.username := "alice2"; UserCreate.email := "a@x.com";
       UserCreate.password := "Xyz789#$" |} "pepper"
    (demo_users ++ [ {| doc_username := "alice"; doc_email := "a@x.com";
                        doc_hashed_password := "h:Abc123!@" |} ])%list
  = (Raise (HTTPException 400 (Lit "Email already registered")),
     (demo_users ++ [ {| doc_username := "alice"; doc_email := "a@x.com";
                         doc_hashed_password := "h:Abc123!@" |} ])%list).
Proof.
  apply (signup_twice demo_hash alice_signup "salt" demo_users
           "User created successfully" _
           {| UserCreate.username := "alice2"; UserCreate.email := "a@x.com";
              UserCreate.password := "Xyz789#$" |} "pepper");
    reflexivity.
Defined.

End AuthMore.

(* ===================================================================== *)
(** * More on strings *)
(* ===================================================================== *)

Module PyFacts.
Import PolicyFacts.
#[local] Arguments String.append !s1 s2 : simpl nomatch.

Lemma split_nonempty sep s : split sep s <> [].
Proof.
  destruct s as [|a s]; simpl; [discriminate |].
  destruct (Ascii.eqb a sep); [discriminate |].
  destruct (split sep s); discriminate.
Qed.

(** Splitting at a separator splits the pieces on either side. *)
Lemma split_app sep x y :
  split sep (x ++ String sep y) = (split sep x ++ split sep y)%list.
Proof.
  induction x as [|a x IH]; simpl.
  - now rewrite Ascii.eqb_refl.
  - destruct (Ascii.eqb a sep); [now rewrite IH |].
    rewrite IH. destruct (split sep x) as [|l ls] eqn:Hx; [| reflexivity].
    now apply split_nonempty in Hx.
Qed.

Lemma split_lacks sep s : lacks sep s = true -> split sep s = [s].
Proof.
  induction s as [|a s IH]; simpl; [reflexivity |].
  intros [Ha Hs]%andb_true_iff. apply negb_true_iff in Ha.
  now rewrite Ha, (IH Hs).
Qed.

(** [sep.join(s.split(sep)) == s] *)
Lemma join_split sep s : join sep (split sep s) = s.
Proof.
  induction s as [|a s IH]; simpl; [reflexivity |].
  destruct (Ascii.eqb_spec a sep) as [-> | Hne].
  - simpl. destruct (split sep s) as [|l ls] eqn:Hs;
      [now apply split_nonempty in Hs |].
    now rewrite IH.
  - destruct (split sep s) as [|l ls] eqn:Hs;
      [now apply split_nonempty in Hs |].
    simpl in *. destruct ls; simpl in *; now rewrite <- IH.
Qed.

Lemma length_split sep s : List.length (split sep s) = S (count sep s).
Proof.
  induction s as [|a s IH]; simpl; [reflexivity |].
  destruct (Ascii.eqb a sep); simpl; [now rewrite IH |].
  destruct (split sep s); simpl in *; lia.
Qed.


Lemma prefix_app_r p r : String.prefix p (p ++ r) = true.
Proof.
  induction p as [|a p IH]; [now destruct r |].
  simpl append. unfold String.prefix; fold String.prefix.
  destruct (Ascii.ascii_dec a a); [exact IH | congruence].
Qed.

(** [ls[1:-1]] of a first line, some lines and a last line. *)
Lemma inner_middle {A} (first : A) (middle : list A) (last : A) :
  inner (first :: middle ++ [last])%list = middle.
Proof. unfold inner. simpl. apply removelast_last. Qed.

(** ** White space *)

Lemma lstrip_first s a : first_char (lstrip s) = Some a -> isspace a = false.
Proof.
  induction s as [|b s IH]; simpl; [discriminate |].
  destruct (isspace b) eqn:Hb; [exact IH |]. simpl. now intros [= <-].
Qed.

Lemma rstrip_first s a : first_char (rstrip s) = Some a -> first_char s = Some a.
Proof.
  destruct s as [|b s]; simpl; [discriminate |].
  destruct (rstrip s); [destruct (isspace b); [discriminate |] |]; trivial.
Qed.

Lemma rstrip_last s a : last_char (rstrip s) = Some a -> isspace a = false.
Proof.
  induction s as [|b s IH]; simpl; [discriminate |].
  destruct (rstrip s) as [|c r] eqn:Hr.
  - destruct (isspace b) eqn:Hb; simpl; [discriminate | now intros [= <-]].
  - exact IH.
Qed.

Lemma last_char_nonempty s : s <> "" -> exists a, last_char s = Some a.
Proof.
  induction s as [|b s IH]; [congruence |]. intros _.
  destruct s as [|c s]; [now exists b |].
  destruct IH as [a Ha]; [discriminate |]. now exists a.
Qed.

(** A stripped string that is not empty has a character that is not white
    space at either end. *)
Lemma strip_ends s :
  strip s <> "" ->
  exists a b, first_char (strip s) = Some a /\ last_char (strip s) = Some b
    /\ isspace a = false /\ isspace b = false.
Proof.
  intros Hne. destruct (last_char_nonempty _ Hne) as [b Hb].
  destruct (strip s) as [|a r] eqn:Hs; [congruence |].
  exists a, b. split; [reflexivity | split; [exact Hb |]]. split.
  - apply (lstrip_first s). apply rstrip_first. unfold strip in Hs.
    now rewrite Hs.
  - apply (rstrip_last (lstrip s)). unfold strip in Hs. now rewrite Hs.
Qed.

Lemma lstrip_all_space s : all_space s = true -> lstrip s = "".
Proof.
  induction s as [|b s IH]; simpl; [reflexivity |].
  intros [-> Hs]%andb_true_iff. now apply IH.
Qed.

(** A string of white space strips to the empty string. *)
Lemma strip_all_space s : all_space s = true -> strip s = "".
Proof. intros Hs. unfold strip. now rewrite lstrip_all_space. Qed.

End PyFacts.

(* ===================================================================== *)
(** * More on tokens and the request authenticator *)
(* ===================================================================== *)

Module TokenMore.
Import Utils Auth Main Demo PolicyFacts UtilsFacts AuthMore PyFacts.
#[local] Arguments String.append !s1 s2 : simpl nomatch.

Section Tokens.
Variable bcrypt_verify : string -> string -> bool.
Variable hmac : string -> string -> string.
Variable serialize : string -> gmap string claim -> string.
Variable load_token : string -> token.

Lemma decode_create_delta data expires_delta now t :
  decode_access_token hmac
    (create_access_token hmac serialize data expires_delta now) t
  = if now + lifetime expires_delta <? t then Ret None
    else Ret (Some (<["exp" := CInt (now + lifetime expires_delta)]> data)).
Proof.
  unfold decode_access_token, create_access_token.
  rewrite jwt_decode_encode. unfold validate_exp.
  rewrite lookup_insert_eq.
  replace (match expires_delta with
           | Some d => if d =? 0 then minutes ACCESS_TOKEN_EXPIRE_MINUTES else d
           | None => minutes ACCESS_TOKEN_EXPIRE_MINUTES
           end) with (lifetime expires_delta) by reflexivity.
  destruct (_ <? t); reflexivity.
Qed.





(** X9: the token of a successful login, sent back as "Bearer <token>",
    authenticates the request as the email that logged in until 60 minutes
    after the login, and gets the 401 afterwards. *)
Theorem login_then_request user now users response token t :
  login bcrypt_verify hmac serialize user now users = Ret response ->
  load_token token = access_token response ->
  lacks " " token = true ->
  get_current_user hmac load_token ("Bearer " ++ token) t
  = if now + 3600 <? t
    then Raise (HTTPException 401 (Lit "Invalid token"))
    else Ret (<["exp" := CInt (now + 3600)]>
                {[ "email" := CStr (UserLogin.email user) ]}).
Proof.
  unfold login, authenticate_user. intros Hlogin Hload Hspace.
  destruct (find_one (UserLogin.email user) users) as [stored |] eqn:Hfind;
    [| discriminate].
  destruct (negb _); [discriminate |].
  injection Hlogin as <-. cbn [access_token UserInDB.email] in Hload.
  apply find_one_email in Hfind as [Hemail _]. rewrite Hemail in Hload.
  unfold get_current_user. unfold startswith. rewrite prefix_app_r.
  change ("Bearer " ++ token) with ("Bearer" ++ String " " token).
  rewrite split_app, (split_lacks _ _ Hspace).
  change (split " " "Bearer") with ["Bearer"].
  cbn [negb app lookup list_lookup mbind res_bind].
  rewrite Hload, decode_create_delta. cbn [lifetime].
  destruct (_ <? t); cbn [mbind res_bind]; [reflexivity |].
  rewrite bool_decide_eq_true_2; [reflexivity |].
  rewrite lookup_insert_ne by discriminate. rewrite lookup_singleton_eq. eauto.
Qed.

End Tokens.



Lemma login_then_request_witness :
  get_current_user demo_hmac demo_load_token ("Bearer " ++ "alice-token") 4000
  = (if 1000 + 3600 <? 4000
     then Raise (HTTPException 401 (Lit "Invalid token"))
     else Ret (<["exp" := CInt (1000 + 3600)]>
                 {[ "email" := CStr "real@x.com" ]})).
Proof.
  apply (login_then_request demo_verify demo_hmac demo_serialize
           demo_load_token
           {| UserLogin.email := "real@x.com";
              UserLogin.password := "Abc123!@" |}
           1000 demo_users
           {| access_token :=
                create_access_token demo_hmac demo_serialize
                  {[ "email" := CStr "real@x.com" ]} None 1000;
              token_type := "bearer" |}
           "alice-token" 4000);
    reflexivity.
Defined.

End TokenMore.

(* ===================================================================== *)
(** * More on the handlers *)
(* ===================================================================== *)

Module MainMore.
Import Utils Auth Main Demo PolicyFacts MainFacts PyFacts.
#[local] Arguments String.append !s1 s2 : simpl nomatch.
#[local] Existing Instance newer_first_trans.
#[local] Existing Instance newer_first_total.

(** ** Fences *)

(** X10: of a fenced answer (an opening line that starts with three
    backquotes, a body, a last line) [unfence] keeps the body, whatever
    line feeds the body holds. *)
Theorem unfence_fenced_body info body last :
  lacks LF info = true -> lacks LF last = true ->
  unfence ("```" ++ info ++ String LF (body ++ String LF last)) = body.
Proof.
  intros Hinfo Hlast. unfold unfence, startswith.
  rewrite prefix_app_r.
  assert (lacks LF ("```" ++ info) = true) as Hfirst by exact Hinfo.
  rewrite <- (app_assoc "```" info).
  rewrite split_app, (split_lacks _ _ Hfirst), split_app,
    (split_lacks _ _ Hlast).
  cbn [app]. rewrite inner_middle, join_split.
  cbn [List.length]. rewrite List.length_app, length_split.
  cbn [List.length]. rewrite Nat.add_1_r. reflexivity.
Qed.

(** X11: an answer with fewer than two line feeds is left as it is, fenced
    or not: a fence opened and closed on one line is not removed. *)
Theorem unfence_short text :
  (count LF text < 2)%nat -> unfence text = text.
Proof.
  intros Hcount. unfold unfence. destruct (startswith _ _); [| reflexivity].
  rewrite length_split.
  destruct (Nat.leb_spec 3 (S (count LF text))); [lia | reflexivity].
Qed.

Lemma unfence_fenced_body_witness :
  unfence ("```" ++ "json"
           ++ String LF (("{" ++ String LF "}") ++ String LF "```"))
  = "{" ++ String LF "}".
Proof.
  apply (unfence_fenced_body "json" ("{" ++ String LF "}") "```");
    reflexivity.
Defined.

Lemma unfence_short_witness : unfence "```{}```" = "```{}```".
Proof. apply (unfence_short "```{}```"). simpl. lia. Defined.

(** ** POST /generate *)

Lemma get_history_unfold current_user owner history :
  current_user !! "email" = Some owner ->
  get_history current_user history
  = Ret (stringify_id <$>
           merge_sort newer_first
             (filter (fun d => HistoryDoc.user_email d = owner) history)).
Proof. intros Hcu. unfold get_history, getitem, find_sorted. now rewrite Hcu. Qed.

Section Generate.
Variable chat : prompt -> res (option string).
Variable json_loads : string -> option json.

(** The two outcomes of [generate]. *)
Lemma generate_cases req current_user now fresh history :
  (exists e,
     generate chat json_loads req current_user now fresh history
     = (Raise (HTTPException 500 (StrOf e)), history))
  \/ (exists response owner,
        current_user !! "email" = Some owner
        /\ strip (GenerateRequest.concept req) <> ""
        /\ GenerateResponse.concept_received response
           = strip (GenerateRequest.concept req)
        /\ GenerateResponse.level response = GenerateRequest.level req
        /\ GenerateResponse.user response = Some owner
        /\ generate chat json_loads req current_user now fresh history
           = (Ret response,
              (history ++ [stored_doc fresh owner now response])%list)).
Proof.
  unfold generate.
  destruct (String.eqb_spec (strip (GenerateRequest.concept req)) "")
    as [| Hne]; [left; eauto |].
  destruct (message_text chat _) as [ai_text | e]; [| left; eauto].
  cbn [mbind res_bind].
  destruct (parse_analogy json_loads _) as [ai_json | e]; [| left; eauto].
  cbn [mbind res_bind].
  destruct (message_text chat _) as [quiz_text | e]; [| left; eauto].
  cbn [mbind res_bind].
  destruct (parse_quiz json_loads _ _) as [quiz_json | e]; [| left; eauto].
  cbn [mbind res_bind]. unfold getitem.
  destruct (current_user !! "email") as [owner |] eqn:Hcu; [| left; eauto].
  cbn [mbind res_bind]. right.
  exists {| GenerateResponse.concept_received :=
              strip (GenerateRequest.concept req);
            GenerateResponse.level := GenerateRequest.level req;
            GenerateResponse.user := Some owner;
            GenerateResponse.result := ai_json;
            GenerateResponse.quiz := quiz_json |}, owner.
  repeat (split; [reflexivity || assumption |]). reflexivity.
Qed.

(** X12: [generate] either fails with a 500 and leaves the collection as it
    was, or answers and appends exactly one document: the caller's, with the
    fresh id, the clock reading, and the concept (stripped, not empty),
    level, result and quiz of the response. *)
Theorem generate_outcomes req current_user now fresh history :
  (exists detail,
     generate chat json_loads req current_user now fresh history
     = (Raise (HTTPException 500 detail), history))
  \/ (exists response owner,
        current_user !! "email" = Some owner
        /\ GenerateResponse.concept_received response
           = strip (GenerateRequest.concept req)
        /\ GenerateResponse.concept_received response <> ""
        /\ generate chat json_loads req current_user now fresh history
           = (Ret response,
              (history ++ [stored_doc fresh owner now response])%list)).
Proof.
  destruct (generate_cases req current_user now fresh history)
    as [[e He] | (response & owner & Hcu & Hne & Hc & _ & _ & Hg)].
  - left. eauto.
  - right. exists response, owner. rewrite Hc. auto.
Qed.


(** X14: [generate], whatever its outcome, does not change what another
    user's history lists. *)
Theorem generate_other_users req current_user now fresh history other owner' :
  other !! "email" = Some owner' ->
  current_user !! "email" <> Some owner' ->
  get_history other
    (generate chat json_loads req current_user now fresh history).2
  = get_history other history.
Proof.
  intros Hother Hne.
  destruct (generate_cases req current_user now fresh history)
    as [[e ->] | (response & owner & Hcu & _ & _ & _ & _ & ->)];
    [reflexivity |].
  cbn [snd]. rewrite !(get_history_unfold _ _ _ Hother).
  rewrite filter_app. unfold filter at 2. simpl.
  rewrite decide_False; [now rewrite app_nil_r | congruence].
Qed.

(** X15: with every earlier id different from the fresh one, [generate]
    keeps the ids of the collection unique. *)
Theorem generate_keeps_ids_unique req current_user now fresh history :
  ids_unique history ->
  Oid fresh ∉ HistoryDoc._id <$> history ->
  ids_unique (generate chat json_loads req current_user now fresh history).2.
Proof.
  unfold ids_unique. intros Huniq Hfresh.
  destruct (generate_cases req current_user now fresh history)
    as [[e ->] | (response & owner & _ & _ & _ & _ & _ & ->)];
    [assumption |].
  cbn [snd]. rewrite fmap_app. apply NoDup_app. split; [assumption | split].
  - intros x Hx Hx'. apply list_elem_of_singleton in Hx'. now subst x.
  - apply NoDup_singleton.
Qed.

(** X16: the concept that a successful [generate] echoes and stores has a
    character that is not white space at either end, so the request's
    concept was not made of white space only. *)
Theorem generate_concept_stripped req current_user now fresh history response history' :
  generate chat json_loads req current_user now fresh history
  = (Ret response, history') ->
  all_space (GenerateRequest.concept req) = false
  /\ exists a b,
       first_char (GenerateResponse.concept_received response) = Some a
       /\ last_char (GenerateResponse.concept_received response) = Some b
       /\ isspace a = false /\ isspace b = false.
Proof.
  intros Hgen.
  destruct (generate_cases req current_user now fresh history)
    as [[e He] | (response' & owner & _ & Hne & Hc & _ & _ & Hg)];
    rewrite Hgen in *; [discriminate |].
  injection Hg as <- _. rewrite Hc. split.
  - destruct (all_space (GenerateRequest.concept req)) eqn:Hall;
      [| reflexivity].
    now apply strip_all_space in Hall.
  - now apply strip_ends.
Qed.

(** ** POST /quiz *)

(** X17: the quiz route answers a blank concept or an empty result with a
    500: its 400 is raised inside the handler's own [try] and caught by its
    [except Exception]. *)
Theorem generate_quiz_missing_fields req current_user :
  strip (QuizRequest.concept req) = "" \/ QuizRequest.result req = ∅ ->
  generate_quiz chat json_loads req current_user
  = Raise (HTTPException 500
             (StrOf (HTTPException 400
                       (Lit "Concept and analogy result are required")))).
Proof.
  unfold generate_quiz. intros [-> | ->]; [reflexivity |].
  rewrite map_size_empty. now rewrite orb_true_r.
Qed.

(** X18: the quiz route answers with a quiz exactly when the concept is not
    blank, the result is not empty, the model answers with a text, and that
    text, stripped and unfenced, parses; the answer is the parsed value as
    it is, with no key filled in. *)
Theorem generate_quiz_success req current_user quiz_json :
  generate_quiz chat json_loads req current_user = Ret quiz_json <->
  strip (QuizRequest.concept req) <> ""
  /\ QuizRequest.result req <> ∅
  /\ exists answer,
       chat (QuizPromptManual (strip (QuizRequest.concept req))
               (QuizRequest.result req)) = Ret (Some answer)
       /\ json_loads (unfence (strip answer)) = Some quiz_json.
Proof.
  unfold generate_quiz, message_text, loads.
  destruct (String.eqb_spec (strip (QuizRequest.concept req)) "")
    as [Heq | Hne]; cbn [orb try_except].
  { split; [discriminate | intros [? _]; contradiction]. }
  destruct (Nat.eqb_spec (size (QuizRequest.result req)) 0) as [Hz | Hnz].
  { apply map_size_empty_inv in Hz.
    split; [discriminate | intros (_ & ? & _); contradiction]. }
  assert (QuizRequest.result req <> ∅) as Hres.
  { intros Hempty. apply Hnz. rewrite Hempty. apply map_size_empty. }
  destruct (chat _) as [[answer |] | e]; cbn [mbind res_bind try_except].
  - destruct (json_loads (unfence (strip answer))) as [j |] eqn:Hj;
      cbn [mbind res_bind try_except].
    + split.
      * intros [= <-]. eauto 6.
      * intros (_ & _ & answer' & [= <-] & Hj'). congruence.
    + split; [discriminate |].
      intros (_ & _ & answer' & [= <-] & Hj'). congruence.
  - split; [discriminate | intros (_ & _ & ? & ? & _); discriminate].
  - split; [discriminate | intros (_ & _ & ? & ? & _); discriminate].
Qed.

End Generate.

(** ** DELETE /history/{entry_id} *)

(** [delete_one] removes nothing when nothing matches, and otherwise the
    first match only. *)
Lemma delete_one_cases matches history :
  ((forall x, x ∈ history -> matches x = false)
   /\ delete_one matches history = (0%nat, history))
  \/ exists before d after,
       history = (before ++ d :: after)%list
       /\ matches d = true
       /\ (forall x, x ∈ before -> matches x = false)
       /\ delete_one matches history = (1%nat, (before ++ after)%list).
Proof.
  induction history as [|x xs IH]; simpl.
  - left. split; [| reflexivity]. intros y Hy. now apply elem_of_nil in Hy.
  - destruct (matches x) eqn:Hx.
    + right. exists [], x, xs. repeat split; [assumption |].
      intros y Hy. now apply elem_of_nil in Hy.
    + destruct IH as [[Hnone ->] | (before & d & after & -> & Hd & Hbefore & ->)].
      * left. split; [| reflexivity].
        intros y [-> | Hy]%elem_of_cons; [assumption | now apply Hnone].
      * right. exists (x :: before), d, after. repeat split; [assumption |].
        intros y [-> | Hy]%elem_of_cons; [assumption | now apply Hbefore].
Qed.

Section Delete.
Variable ObjectId : string -> res oid.

(** The three outcomes of [delete_history] for a caller with an email. *)
Lemma delete_history_cases entry_id current_user owner history :
  current_user !! "email" = Some owner ->
  (exists e, ObjectId entry_id = Raise e
     /\ delete_history ObjectId entry_id current_user history
        = (Raise (HTTPException 400 (Lit "Invalid entry ID")), history))
  \/ (exists obj_id, ObjectId entry_id = Ret obj_id
        /\ (forall x, x ∈ history ->
              ~ (HistoryDoc._id x = Oid obj_id
                 /\ HistoryDoc.user_email x = owner))
        /\ delete_history ObjectId entry_id current_user history
           = (Raise (HTTPException 404 (Lit "Entry not found or unauthorized")),
              history))
  \/ (exists obj_id before d after, ObjectId entry_id = Ret obj_id
        /\ history = (before ++ d :: after)%list
        /\ HistoryDoc._id d = Oid obj_id /\ HistoryDoc.user_email d = owner
        /\ (forall x, x ∈ before ->
              ~ (HistoryDoc._id x = Oid obj_id
                 /\ HistoryDoc.user_email x = owner))
        /\ delete_history ObjectId entry_id current_user history
           = (Ret {| status := "success"; message := "History entry deleted" |},
              (before ++ after)%list)).
Proof.
  intros Hcu. unfold delete_history, getitem. rewrite Hcu.
  destruct (ObjectId entry_id) as [obj_id | e]; cbn [try_except];
    [| left; eauto].
  right.
  destruct (delete_one_cases
              (fun d => bool_decide (HistoryDoc._id d = Oid obj_id
                                     ∧ HistoryDoc.user_email d = owner))
              history)
    as [[Hnone ->] | (before & d & after & -> & Hd & Hbefore & ->)].
  - left. exists obj_id. repeat split.
    intros x Hx. specialize (Hnone x Hx).
    now apply bool_decide_eq_false in Hnone.
  - right. apply bool_decide_eq_true_1 in Hd as [Hd Ho].
    exists obj_id, before, d, after. repeat split; try assumption.
    intros x Hx. specialize (Hbefore x Hx).
    now apply bool_decide_eq_false in Hbefore.
Qed.

(** X19: a delete that succeeds removes one document, the first one with
    the id and the caller's email, and keeps every other document in its
    place. *)
Theorem delete_history_removes_first_match
    entry_id obj_id current_user owner history response history' :
  ObjectId entry_id = Ret obj_id ->
  current_user !! "email" = Some owner ->
  delete_history ObjectId entry_id current_user history
  = (Ret response, history') ->
  exists before d after,
    history = (before ++ d :: after)%list
    /\ history' = (before ++ after)%list
    /\ HistoryDoc._id d = Oid obj_id /\ HistoryDoc.user_email d = owner
    /\ forall x, x ∈ before ->
         ~ (HistoryDoc._id x = Oid obj_id /\ HistoryDoc.user_email x = owner).
Proof.
  intros Hid Hcu Hdel.
  destruct (delete_history_cases entry_id current_user owner history Hcu)
    as [(e & _ & H) | [(o & _ & _ & H)
                      | (o & before & d & after & Hid' & -> & Hd & Ho & Hb & H)]];
    rewrite H in Hdel; try discriminate.
  injection Hdel as _ <-. rewrite Hid in Hid'. injection Hid' as <-.
  exists before, d, after. auto.
Qed.

(** X20: when [delete_history] fails for a caller with an email, the
    failure is the 400 (the id does not parse) or the 404, and the
    collection is as it was. *)
Theorem delete_history_failure entry_id current_user owner history e history' :
  current_user !! "email" = Some owner ->
  delete_history ObjectId entry_id current_user history = (Raise e, history') ->
  history' = history
  /\ (e = HTTPException 400 (Lit "Invalid entry ID")
      \/ e = HTTPException 404 (Lit "Entry not found or unauthorized")).
Proof.
  intros Hcu Hdel.
  destruct (delete_history_cases entry_id current_user owner history Hcu)
    as [(e0 & _ & H) | [(o & _ & _ & H) | (o & b & d & a & _ & _ & _ & _ & _ & H)]];
    rewrite H in Hdel; try discriminate; injection Hdel as <- <-; auto.
Qed.

(** X21: with unique ids, a delete that succeeded leaves no document with
    that id and the ids unique, so deleting the same entry again is
    answered 404 and removes nothing. *)
Theorem delete_history_twice
    entry_id obj_id current_user owner history response history' :
  ids_unique history ->
  ObjectId entry_id = Ret obj_id ->
  current_user !! "email" = Some owner ->
  delete_history ObjectId entry_id current_user history
  = (Ret response, history') ->
  id_absent obj_id history'
  /\ ids_unique history'
  /\ delete_history ObjectId entry_id current_user history'
     = (Raise (HTTPException 404 (Lit "Entry not found or unauthorized")),
        history').
Proof.
  intros Huniq Hid Hcu Hdel.
  destruct (delete_history_cases entry_id current_user owner history Hcu)
    as [(e & _ & H) | [(o & _ & _ & H)
                      | (o & before & d & after & Hid' & -> & Hd & _ & _ & H)]];
    rewrite H in Hdel; try discriminate.
  injection Hdel as _ <-. rewrite Hid in Hid'. injection Hid' as <-.
  unfold ids_unique in *. rewrite fmap_app, fmap_cons in Huniq.
  apply NoDup_app in Huniq as (Hbefore & Hcross & Hafter).
  apply NoDup_cons in Hafter as [Hd_after Hafter].
  assert (id_absent obj_id (before ++ after)) as Habsent.
  { intros x [Hx | Hx]%elem_of_app Hx'.
    - apply (Hcross (HistoryDoc._id x)); [now apply list_elem_of_fmap_2 |].
      rewrite Hx', <- Hd. apply list_elem_of_here.
    - apply Hd_after. rewrite Hd, <- Hx'. now apply list_elem_of_fmap_2. }
  split; [exact Habsent | split].
  - rewrite fmap_app. apply NoDup_app.
    split; [assumption | split; [| assumption]].
    intros x Hx Hx'. apply (Hcross x Hx). now apply list_elem_of_further.
  - unfold delete_history, getitem. rewrite Hid, Hcu. cbn [try_except].
    rewrite delete_one_no_match; [reflexivity |].
    intros x Hx. apply bool_decide_eq_false_2. intros [Hx' _].
    now apply (Habsent x).
Qed.

(** X22: a delete, whatever its outcome, does not change what another
    user's history lists. *)
Theorem delete_history_other_users
    entry_id current_user owner history other owner' :
  current_user !! "email" = Some owner ->
  other !! "email" = Some owner' ->
  owner <> owner' ->
  get_history other
    (delete_history ObjectId entry_id current_user history).2
  = get_history other history.
Proof.
  intros Hcu Hother Hne.
  destruct (delete_history_cases entry_id current_user owner history Hcu)
    as [(e & _ & ->) | [(o & _ & _ & ->)
                       | (o & before & d & after & _ & -> & _ & Ho & _ & ->)]];
    cbn [snd]; try reflexivity.
  rewrite !(get_history_unfold _ _ _ Hother).
  rewrite !filter_app, filter_cons, decide_False; [reflexivity | congruence].
Qed.

End Delete.

(** ** Runs of the theorems above *)

Lemma demo_history_ids_unique : ids_unique demo_history.
Proof. unfold ids_unique. apply (bool_decide_unpack _). vm_compute. exact I. Qed.


Lemma generate_other_users_witness :
  get_history demo_bob
    (generate demo_chat demo_json_loads demo_request demo_alice 1000
       other_oid demo_history).2
  = get_history demo_bob demo_history.
Proof.
  apply (generate_other_users demo_chat demo_json_loads demo_request
           demo_alice 1000 other_oid demo_history demo_bob
           (CStr "bob@x.com")).
  - reflexivity.
  - discriminate.
Defined.

Lemma generate_keeps_ids_unique_witness :
  ids_unique
    (generate demo_chat demo_json_loads demo_request demo_alice 1000
       other_oid demo_history).2.
Proof.
  apply (generate_keeps_ids_unique demo_chat demo_json_loads demo_request
           demo_alice 1000 other_oid demo_history).
  - exact demo_history_ids_unique.
  - apply (bool_decide_unpack _). vm_compute. exact I.
Defined.

Lemma generate_concept_stripped_witness :
  all_space (GenerateRequest.concept demo_request) = false
  /\ exists a b,
       first_char (GenerateResponse.concept_received demo_response) = Some a
       /\ last_char (GenerateResponse.concept_received demo_response) = Some b
       /\ isspace a = false /\ isspace b = false.
Proof.
  apply (generate_concept_stripped demo_chat demo_json_loads demo_request
           demo_alice 1000 demo_oid [] demo_response
           [stored_doc demo_oid (CStr "alice@x.com") 1000 demo_response]).
  reflexivity.
Defined.

Lemma generate_quiz_missing_fields_witness :
  generate_quiz demo_chat demo_json_loads
    {| QuizRequest.concept := "recursion"; QuizRequest.result := ∅ |}
    demo_alice
  = Raise (HTTPException 500
             (StrOf (HTTPException 400
                       (Lit "Concept and analogy result are required")))).
Proof.
  apply (generate_quiz_missing_fields demo_chat demo_json_loads
           {| QuizRequest.concept := "recursion"; QuizRequest.result := ∅ |}
           demo_alice).
  right. reflexivity.
Defined.

Lemma delete_history_removes_first_match_witness :
  exists before d after,
    demo_history = (before ++ d :: after)%list
    /\ [ demo_doc "0123456789abcdef01234567" "bob@x.com" 20;
         demo_doc "0123456789abcdef01234569" "alice@x.com" 30 ]
       = (before ++ after)%list
    /\ HistoryDoc._id d = Oid alice_oid
    /\ HistoryDoc.user_email d = CStr "alice@x.com"
    /\ forall x, x ∈ before ->
         ~ (HistoryDoc._id x = Oid alice_oid
            /\ HistoryDoc.user_email x = CStr "alice@x.com").
Proof.
  apply (delete_history_removes_first_match demo_ObjectId alice_entry_id
           alice_oid demo_alice (CStr "alice@x.com") demo_history
           {| status := "success"; message := "History entry deleted" |});
    reflexivity.
Defined.

Lemma delete_history_failure_witness :
  demo_history = demo_history
  /\ (HTTPException 400 (Lit "Invalid entry ID")
      = HTTPException 400 (Lit "Invalid entry ID")
      \/ HTTPException 400 (Lit "Invalid entry ID")
         = HTTPException 404 (Lit "Entry not found or unauthorized")).
Proof.
  apply (delete_history_failure demo_ObjectId "not-an-id" demo_alice
           (CStr "alice@x.com") demo_history);
    reflexivity.
Defined.

Lemma delete_history_twice_witness :
  let history' :=
    [ demo_doc "0123456789abcdef01234567" "bob@x.com" 20;
      demo_doc "0123456789abcdef01234569" "alice@x.com" 30 ] in
  id_absent alice_oid history'
  /\ ids_unique history'
  /\ delete_history demo_ObjectId alice_entry_id demo_alice history'
     = (Raise (HTTPException 404 (Lit "Entry not found or unauthorized")),
        history').
Proof.
  apply (delete_history_twice demo_ObjectId alice_entry_id alice_oid
           demo_alice (CStr "alice@x.com") demo_history
           {| status := "success"; message := "History entry deleted" |});
    [exact demo_history_ids_unique | reflexivity ..].
Defined.

Lemma delete_history_other_users_witness :
  get_history demo_bob
    (delete_history demo_ObjectId alice_entry_id demo_alice demo_history).2
  = get_history demo_bob demo_history.
Proof.
  apply (delete_history_other_users demo_ObjectId alice_entry_id demo_alice
           (CStr "alice@x.com") demo_history demo_bob (CStr "bob@x.com"));
    [reflexivity | reflexivity | discriminate].
Defined.

End MainMore.

(* ===================================================================== *)
(** * The connection test *)
(* ===================================================================== *)

Module TestDbFacts.
Import Auth TestDb Demo AuthMore.

Lemma delete_one_snoc email users d :
  find_one email users = None -> doc_email d = email ->
  delete_one email (users ++ [d])%list = users.
Proof.
  unfold find_one. intros Hnone Hd.
  induction users as [|u us IH]; simpl in *.
  - apply String.eqb_eq in Hd. now rewrite Hd.
  - destruct (String.eqb (doc_email u) email); [discriminate |].
    now rewrite IH.
Qed.


(** X23: on a collection with no user of the test email, the connection
    test fetches the user it inserted and leaves the collection as it
    found it. *)
Theorem test_connection_fresh users :
  find_one "test@example.com" users = None ->
  test_connection users = (Some test_user, users).
Proof.
  intros Hnone. unfold test_connection, insert_one.
  rewrite find_one_snoc, Hnone, (delete_one_snoc _ _ _ Hnone); reflexivity.
Qed.


Lemma test_connection_fresh_witness :
  test_connection demo_users = (Some test_user, demo_users).
Proof. apply (test_connection_fresh demo_users). reflexivity. Defined.


End TestDbFacts.
